(** * Clipboard_PRO: the record store, its configuration and the clipboard poller

    A shallow embedding of [src/storage.py], [src/config.py] and the
    polling step of [src/clipboard_monitor.py], with the properties the
    specification states about them.

    Modelling choices.
    - A record is the Python dict [{id, content, type, timestamp, favorited}].
      [id] is an epoch timestamp; the float is taken as an exact number of
      seconds ([Z]), so that subtraction and comparison are the mathematical
      ones.
    - Configuration values are the JSON values the settings dialog writes:
      [None], booleans and non-negative integers.
    - The file system is a finite map from paths to nodes.  Every call the
      code makes into [os], [shutil], [open] and [json] is a primitive of the
      [Eff] monad below; each primitive appends itself to a call log, so
      that "touches nothing else" is a statement about the log.
    - [delete_file_permanently] is embedded along its [os.unlink] branch;
      the [try/except] around it turns a failure into the result [False].
    - [print] is dropped. *)

From Stdlib Require Import ZArith Ascii String Sorted.
From stdpp Require Import base tactics option list sorting gmap strings.

Local Open Scope string_scope.
Local Open Scope Z_scope.
Local Open Scope list_scope.

(** ** Data model *)

(** One clipboard history entry (the dict built by
    [ClipboardMonitor._handle_new_content]). *)
Record record := Build_record {
  id : Z;
  content : string;
  type : string;
  timestamp : string;
  favorited : bool
}.

#[global] Instance record_eq_dec : EqDecision record.
Proof. solve_decision. Defined.

(** Python values that occur as settings. *)
Inductive value :=
  | VNone
  | VBool (b : bool)
  | VInt (n : nat).

#[global] Instance value_eq_dec : EqDecision value.
Proof. solve_decision. Defined.

(** [bool] is a subclass of [int] in Python: [True] counts as 1. *)
Definition int_of (v : value) : option nat :=
  match v with
  | VNone => None
  | VBool b => Some (if b then 1%nat else 0%nat)
  | VInt n => Some n
  end.

(** Truth value of a setting, as [if v:] computes it. *)
Definition truthy (v : value) : bool :=
  match v with
  | VNone => false
  | VBool b => b
  | VInt n => negb (Nat.eqb n 0)
  end.

(** ** File system *)

(** What [json.load] finds in a file: a list of records, an object of
    settings, a non-empty list of [[key, value]] pairs with string keys
    (the other shape that [dict.update] accepts), or content that neither
    the store nor the settings can use.  Lists that mix pairs with other
    elements are not modelled. *)
Inductive document :=
  | Records (rs : list record)
  | Settings (kv : gmap string value)
  | Pairs (first : string * value) (rest : list (string * value))
  | Garbage.

#[global] Instance document_eq_dec : EqDecision document.
Proof. solve_decision. Defined.

Inductive node :=
  | File (doc : document)
  | Dir.

#[global] Instance node_eq_dec : EqDecision node.
Proof. solve_decision. Defined.

Inductive fs_call :=
  | Exists (p : string)
  | IsFile (p : string)
  | ListDir (p : string)
  | Unlink (p : string)
  | OpenRead (p : string)
  | OpenWrite (p : string)
  | RmTree (p : string)
  | MakeDirs (p : string).

Record world := World {
  files : gmap string node;
  calls : list fs_call
}.

Definition is_file (fs : gmap string node) (p : string) : bool :=
  match fs !! p with
  | Some (File _) => true
  | _ => false
  end.

Definition is_dir (fs : gmap string node) (p : string) : bool :=
  match fs !! p with
  | Some Dir => true
  | _ => false
  end.

(** *** Paths ([posixpath]) *)

Definition sep : ascii := "/"%char.

Fixpoint ends_with_sep (s : string) : bool :=
  match s with
  | EmptyString => false
  | String c EmptyString => bool_decide (c = sep)
  | String _ s' => ends_with_sep s'
  end.

Definition starts_with_sep (s : string) : bool :=
  match s with
  | String c _ => bool_decide (c = sep)
  | EmptyString => false
  end.

Fixpoint has_sep (s : string) : bool :=
  match s with
  | EmptyString => false
  | String c s' => bool_decide (c = sep) || has_sep s'
  end.

(** [os.path.join(a, b)] for two components. *)
Definition os_path_join (a b : string) : string :=
  if starts_with_sep b then b
  else if bool_decide (a = "") || ends_with_sep a then a +:+ b
  else a +:+ String sep b.

(** [p[:p.rfind('/') + 1]]: everything up to and including the last
    separator. *)
Fixpoint head_part (p : string) : string :=
  match p with
  | EmptyString => EmptyString
  | String c p' =>
      if has_sep p' then String c (head_part p')
      else if bool_decide (c = sep) then String c EmptyString
      else EmptyString
  end.

Fixpoint all_sep (s : string) : bool :=
  match s with
  | EmptyString => true
  | String c s' => bool_decide (c = sep) && all_sep s'
  end.

Fixpoint rstrip_sep (s : string) : string :=
  match s with
  | EmptyString => EmptyString
  | String c s' =>
      match rstrip_sep s' with
      | EmptyString => if bool_decide (c = sep) then EmptyString else String c EmptyString
      | r => String c r
      end
  end.

(** [os.path.dirname]. *)
Definition os_path_dirname (p : string) : string :=
  let head := head_part p in
  if negb (bool_decide (head = "")) && negb (all_sep head)
  then rstrip_sep head else head.

(** [strip_prefix pre s] is [Some r] exactly when [s = pre ++ r]. *)
Fixpoint strip_prefix (pre s : string) : option string :=
  match pre, s with
  | EmptyString, _ => Some s
  | String a pre', String b s' =>
      if bool_decide (a = b) then strip_prefix pre' s' else None
  | String _ _, EmptyString => None
  end.

(** The name under which path [p] is listed in directory [d], if it is an
    entry of [d] itself (and not of a subdirectory). *)
Definition child_name (d p : string) : option string :=
  match strip_prefix (os_path_join d "") p with
  | Some n =>
      if bool_decide (n = "") || has_sep n then None else Some n
  | None => None
  end.

(** Removing a directory tree: the path and everything below it. *)
Definition below (d p : string) : bool :=
  bool_decide (p = d) || bool_decide (is_Some (strip_prefix (os_path_join d "") p)).

(** ** The effect monad: a world and the log of calls into it *)

Definition Eff (A : Type) : Type := world → A * world.

#[global] Instance Eff_ret : MRet Eff := λ A x w, (x, w).
#[global] Instance Eff_bind : MBind Eff := λ A B f m w,
  let '(x, w') := m w in f x w'.

Definition log (c : fs_call) (w : world) : world :=
  World (files w) (calls w ++ [c]).

(** [for x in xs: body(x)] *)
Fixpoint for_ {A} (xs : list A) (body : A → Eff unit) : Eff unit :=
  match xs with
  | [] => mret tt
  | x :: xs' => body x ;; for_ xs' body
  end.

(** [os.path.exists] *)
Definition os_path_exists (p : string) : Eff bool := λ w,
  (bool_decide (is_Some (files w !! p)), log (Exists p) w).

(** [if os.path.exists(p): body] *)
Definition if_exists {A} (p : string) (body : Eff A) : Eff unit :=
  b ← os_path_exists p;
  if b : bool then body ;; mret tt else mret tt.

(** [os.path.isfile] *)
Definition os_path_isfile (p : string) : Eff bool := λ w,
  (is_file (files w) p, log (IsFile p) w).

(** [os.listdir]; [None] stands for the exception raised when the path is
    not a directory. *)
Definition os_listdir (d : string) : Eff (option (list string)) := λ w,
  (if is_dir (files w) d
   then Some (omap (child_name d) (fst <$> map_to_list (files w)))
   else None,
   log (ListDir d) w).

(** [delete_file_permanently]: [os.unlink] inside [try/except]; the result
    says whether the file was removed. *)
Definition delete_file_permanently (file_path : string) : Eff bool := λ w,
  if is_file (files w) file_path
  then (true, World (delete file_path (files w)) (calls w ++ [Unlink file_path]))
  else (false, log (Unlink file_path) w).

(** [with open(p, 'r') as f: json.load(f)]; [None] stands for an exception
    ([open] on a directory or a missing file). *)
Definition json_load (p : string) : Eff (option document) := λ w,
  (match files w !! p with
   | Some (File d) => Some d
   | _ => None
   end,
   log (OpenRead p) w).

(** [with open(p, 'w') as f: json.dump(doc, f)]; the result is [false] when
    [open] raises (the path is a directory). *)
Definition json_dump (p : string) (doc : document) : Eff bool := λ w,
  if is_dir (files w) p
  then (false, log (OpenWrite p) w)
  else (true, World (<[p := File doc]> (files w)) (calls w ++ [OpenWrite p])).

(** [shutil.rmtree]; fails (result [false]) on anything but a directory. *)
Definition shutil_rmtree (d : string) : Eff bool := λ w,
  if is_dir (files w) d
  then (true, World (filter (λ kv, below d kv.1 = false) (files w))
                    (calls w ++ [RmTree d]))
  else (false, log (RmTree d) w).

(** [os.makedirs(d, exist_ok=True)]; fails when a file is in the way. *)
Definition os_makedirs (d : string) : Eff bool := λ w,
  match files w !! d with
  | Some (File _) => (false, log (MakeDirs d) w)
  | Some Dir => (true, log (MakeDirs d) w)
  | None => (true, World (<[d := Dir]> (files w)) (calls w ++ [MakeDirs d]))
  end.

(** [image.save(p)]: the file written holds no JSON. *)
Definition image_save (p : string) : Eff bool := json_dump p Garbage.

(** ** [config.py] *)

Module Config.

Record t := Build {
  config_file : string;
  config : gmap string value
}.

Definition _load_default_config : gmap string value :=
  {[ "max_records" := VNone;
     "max_age_minutes" := VNone;
     "clear_data_on_exit" := VBool true ]}.

(** [d.update(pairs)]: [d[k] = v] for each pair, in the order of the
    list. *)
Definition update_pairs (pairs : list (string * value)) (d : gmap string value)
    : gmap string value :=
  foldl (λ d kv, <[kv.1 := kv.2]> d) d pairs.

(** [self.config.update(loaded_config)] when the file exists and holds a
    JSON object or a list of pairs; any exception leaves the dict as it
    is. *)
Definition _load_config (self : t) : Eff t :=
  b ← os_path_exists (config_file self);
  if b : bool then
    loaded ← json_load (config_file self);
    match loaded with
    | Some (Settings loaded_config) =>
        mret (Build (config_file self) (loaded_config ∪ config self))
    | Some (Pairs first rest) =>
        mret (Build (config_file self) (update_pairs (first :: rest) (config self)))
    | _ => mret self
    end
  else mret self.

(** [file__] is the module's [__file__]. *)
Definition __init__ (file__ : string) : Eff t :=
  let config_file :=
    os_path_join (os_path_dirname (os_path_dirname file__)) "config.json" in
  _load_config (Build config_file _load_default_config).

Definition _save_config (self : t) : Eff unit :=
  json_dump (config_file self) (Settings (config self)) ;; mret tt.

(** [dict.get(key)] answers [None] for a missing key. *)
Definition get_max_records (self : t) : value :=
  default VNone (config self !! "max_records").

Definition set_max_records (max_records : value) (self : t) : Eff t :=
  let self := Build (config_file self) (<["max_records" := max_records]> (config self)) in
  _save_config self ;; mret self.

Definition get_max_age_minutes (self : t) : value :=
  default VNone (config self !! "max_age_minutes").

Definition set_max_age_minutes (max_age_minutes : value) (self : t) : Eff t :=
  let self := Build (config_file self) (<["max_age_minutes" := max_age_minutes]> (config self)) in
  _save_config self ;; mret self.

Definition get_clear_data_on_exit (self : t) : value :=
  default (VBool true) (config self !! "clear_data_on_exit").

Definition set_clear_data_on_exit (clear_data : value) (self : t) : Eff t :=
  let self := Build (config_file self) (<["clear_data_on_exit" := clear_data]> (config self)) in
  _save_config self ;; mret self.

End Config.

(** ** [storage.py] *)

Module Storage.

Record t := Build {
  config : option Config.t;
  max_records : value;
  data_file : string;
  records : list record
}.

Definition set_records (rs : list record) (self : t) : t :=
  Build (config self) (max_records self) (data_file self) rs.

(** [os.path.join(os.path.dirname(self.data_file), 'temp_images')] *)
Definition temp_dir (self : t) : string :=
  os_path_join (os_path_dirname (data_file self)) "temp_images".

(** [self.records[:self.max_records]], guarded by
    [self.max_records is not None]. *)
Definition truncate (max_records : value) (rs : list record) : list record :=
  match int_of max_records with
  | Some n => take n rs
  | None => rs
  end.

(** [self.records[self.max_records:]] *)
Definition overflow (max_records : value) (rs : list record) : list record :=
  match int_of max_records with
  | Some n => drop n rs
  | None => []
  end.

(** [list.sort(key=lambda x: x['id'], reverse=True)]: a stable sort into
    descending order of [id]; records with equal ids keep their order. *)
Fixpoint insert_desc (x : record) (l : list record) : list record :=
  match l with
  | [] => [x]
  | y :: l' =>
      if bool_decide (id x < id y) then y :: insert_desc x l' else x :: y :: l'
  end.

Definition sort_by_id_desc (l : list record) : list record :=
  foldr insert_desc [] l.

(** The loop body shared by every place that drops records:
    [if record['type'] == 'image': if os.path.exists(p): delete(p)]. *)
Definition delete_image_of (r : record) : Eff unit :=
  if bool_decide (type r = "image") then
    let image_path := content r in
    if_exists image_path (delete_file_permanently image_path)
  else mret tt.

(** The two accumulators of the loop in [_filter_by_age]. *)
Definition age_step (current_time max_age_seconds : Z)
    (acc : list record * list record) (r : record) : list record * list record :=
  let record_time := id r in
  let age_seconds := current_time - record_time in
  if bool_decide (age_seconds ≤ max_age_seconds)
  then (acc.1 ++ [r], acc.2)
  else (acc.1, acc.2 ++ [r]).

(** [current_time] is the value [time.time()] returns. *)
Definition _filter_by_age (current_time : Z) (self : t) : Eff t :=
  match config self with
  | None => mret self
  | Some cfg =>
      match int_of (Config.get_max_age_minutes cfg) with
      | None => mret self
      | Some max_age_minutes =>
          let max_age_seconds := Z.of_nat max_age_minutes * 60 in
          let '(filtered_records, records_to_delete) :=
            foldl (age_step current_time max_age_seconds) ([], []) (records self) in
          for_ records_to_delete delete_image_of ;;
          mret (set_records filtered_records self)
      end
  end.

Definition _cleanup_orphaned_images (self : t) : Eff unit :=
  let temp_dir := temp_dir self in
  b ← os_path_exists temp_dir;
  if negb b then mret tt
  else
    let image_paths_in_records : gset string :=
      list_to_set (content <$> filter (λ r, type r = "image") (records self)) in
    listing ← os_listdir temp_dir;
    match listing with
    | None => mret tt
    | Some names =>
        for_ names (λ filename,
          let file_path := os_path_join temp_dir filename in
          f ← os_path_isfile file_path;
          if f && bool_decide (file_path ∉ image_paths_in_records)
          then delete_file_permanently file_path ;; mret tt
          else mret tt)
    end.

Definition _load_data (current_time : Z) (self : t) : Eff t :=
  b ← os_path_exists (data_file self);
  if b : bool then
    loaded ← json_load (data_file self);
    match loaded with
    | Some (Records rs) =>
        let self := set_records (sort_by_id_desc rs) self in
        self ← _filter_by_age current_time self;
        let self := set_records (truncate (max_records self) (records self)) self in
        _cleanup_orphaned_images self ;;
        mret self
    | _ => mret (set_records [] self)
    end
  else mret self.

(** [Storage(config, max_records)]; [file__] is the module's [__file__]. *)
Definition __init__ (file__ : string) (config : option Config.t) (max_records : value)
    (current_time : Z) : Eff t :=
  let max_records :=
    match config with
    | None => max_records
    | Some c => Config.get_max_records c
    end in
  let data_file :=
    os_path_join (os_path_dirname (os_path_dirname file__)) "clipboard_data.json" in
  _load_data current_time (Build config max_records data_file []).

Definition _save_data (self : t) : Eff t :=
  self ←
    (match int_of (max_records self) with
     | Some n =>
         if bool_decide (n < length (records self))%nat then
           let records_to_delete := drop n (records self) in
           for_ records_to_delete delete_image_of ;;
           mret (set_records (take n (records self)) self)
         else mret self
     | None => mret self
     end);
  json_dump (data_file self) (Records (records self)) ;;
  mret self.

(** The scan [for existing_record in self.records] of [add_record]: the
    position of the first record with the content and type of [r]. *)
Fixpoint find_duplicate (r : record) (rs : list record) : option nat :=
  match rs with
  | [] => None
  | existing_record :: rs' =>
      if bool_decide (content existing_record = content r)
         && bool_decide (type existing_record = type r)
      then Some 0%nat
      else S <$> find_duplicate r rs'
  end.

(** [list.remove(x)]: drops the first element equal to [x]. *)
Fixpoint list_remove (x : record) (l : list record) : list record :=
  match l with
  | [] => []
  | y :: l' => if bool_decide (y = x) then l' else y :: list_remove x l'
  end.

(** Assigning to two keys of the dict. *)
Definition bump (existing_record r : record) : record :=
  Build_record (id r) (content existing_record) (type existing_record)
               (timestamp r) (favorited existing_record).

Definition add_record (record : record) (current_time : Z) (self : t) : Eff t :=
  match find_duplicate record (records self) with
  | Some i =>
      match records self !! i with
      | Some existing_record =>
          (* the dict is updated in place, which the list sees *)
          let existing_record' := bump existing_record record in
          let rs := <[i := existing_record']> (records self) in
          let rs := list_remove existing_record' rs in
          let rs := existing_record' :: rs in
          _save_data (set_records rs self)
      | None => mret self
      end
  | None =>
      let self := set_records (record :: records self) self in
      self ← _filter_by_age current_time self;
      let self := set_records (truncate (max_records self) (records self)) self in
      _save_data self
  end.

Definition update_config (cfg : Config.t) (current_time : Z) (self : t) : Eff t :=
  let self := Build (Some cfg) (Config.get_max_records cfg) (data_file self) (records self) in
  let old_count := length (records self) in
  self ← _filter_by_age current_time self;
  self ←
    (match int_of (max_records self) with
     | Some n =>
         if bool_decide (n < length (records self))%nat then
           let records_to_delete := drop n (records self) in
           for_ records_to_delete delete_image_of ;;
           mret (set_records (take n (records self)) self)
         else mret self
     | None => mret self
     end);
  if bool_decide (length (records self) < old_count)%nat
  then _save_data self
  else mret self.

Definition get_records (filter_type : option string) (self : t) : list record :=
  match filter_type with
  | Some ty => if bool_decide (ty = "") then records self
               else filter (λ r, type r = ty) (records self)
  | None => records self
  end.

(** The first record with the given id, if any. *)
Definition find_by_id (record_id : Z) (rs : list record) : option record :=
  head (filter (λ r, id r = record_id) rs).

Definition delete_record (record_id : Z) (self : t) : Eff t :=
  let record_to_delete := find_by_id record_id (records self) in
  match record_to_delete with
  | Some r => delete_image_of r
  | None => mret tt
  end ;;
  let self := set_records (filter (λ r, id r ≠ record_id) (records self)) self in
  _save_data self.

Definition delete_multiple (record_ids : list Z) (self : t) : Eff t :=
  let records_to_delete := filter (λ r, id r ∈ record_ids) (records self) in
  for_ records_to_delete delete_image_of ;;
  let self := set_records (filter (λ r, id r ∉ record_ids) (records self)) self in
  _save_data self.

Definition clear_all (self : t) : Eff t :=
  for_ (records self) delete_image_of ;;
  let self := set_records [] self in
  self ← _save_data self;
  if_exists (data_file self) (delete_file_permanently (data_file self)) ;;
  let temp_dir := temp_dir self in
  if_exists temp_dir (shutil_rmtree temp_dir) ;;
  mret self.

End Storage.

(** ** [clipboard_monitor.py] *)

Module ClipboardMonitor.

(** The values [self.last_content] takes: [None], a [str] (a text or the
    hex digest of a bitmap) or the tuple of a file drop. *)
Inductive last :=
  | LNone
  | LStr (s : string)
  | LFiles (fs : list string).

#[global] Instance last_eq_dec : EqDecision last.
Proof. solve_decision. Defined.

(** A bitmap on the clipboard: the MD5 hex digest of its bytes, and
    whether [Image.open] accepts them. *)
Record dib := Dib {
  hexdigest : string;
  decodes : bool
}.

(** What one poll finds: the first available format in the order of the
    [if/elif] chain, with what [GetClipboardData] answers ([None] when it
    raises). *)
Inductive clipboard :=
  | Busy
  | UnicodeText (data : option string)
  | AnsiText (data : option string)
  | FileDrop (data : option (list string))
  | Bitmap (data : option dib)
  | NoFormat.

(** Two readings of [datetime.now()] and one of [time.time()]. *)
Record clock := Clock {
  now_timestamp : Z;
  now_strftime : string;
  time_time : Z
}.

Record t := Build {
  last_content : last;
  temp_dir : string
}.

(** [_get_temp_dir] outside a frozen executable. *)
Definition _get_temp_dir (file__ : string) : string :=
  os_path_join (os_path_dirname (os_path_dirname file__)) "temp_images".

(** [ClipboardMonitor(storage)]: nothing seen yet, and the temp-images
    directory made; [None] stands for the exception of [os.makedirs] when a
    file is in the way. *)
Definition __init__ (file__ : string) : Eff (option t) :=
  let temp_dir := _get_temp_dir file__ in
  made ← os_makedirs temp_dir;
  mret (if made : bool then Some (Build LNone temp_dir) else None).

(** [storage.notify_change()] only calls the registered observers, which
    post a signal to the window; it changes neither store nor disk. *)
Definition _handle_new_content (content_type content : string) (c : clock)
    (storage : Storage.t) : Eff Storage.t :=
  let record :=
    Build_record (now_timestamp c) content content_type (now_strftime c) false in
  Storage.add_record record (time_time c) storage.

Definition join_lines (files : list string) : string :=
  match files with
  | [] => ""
  | f :: fs => foldl (λ acc x, acc +:+ String "010"%char x) f fs
  end.

Definition _check_clipboard (WIN32_AVAILABLE : bool) (cb : clipboard) (c : clock)
    (self : t) (storage : Storage.t) : Eff (t * Storage.t) :=
  if negb WIN32_AVAILABLE then mret (self, storage)
  else
    match cb with
    | Busy => mret (self, storage)
    | UnicodeText data | AnsiText data =>
        match data with
        | Some content =>
            if bool_decide (LStr content ≠ last_content self) then
              storage ← _handle_new_content "text" content c storage;
              mret (Build (LStr content) (temp_dir self), storage)
            else mret (self, storage)
        | None => mret (self, storage)
        end
    | FileDrop data =>
        match data with
        | Some files =>
            if bool_decide (LFiles files ≠ last_content self) then
              storage ← _handle_new_content "file" (join_lines files) c storage;
              mret (Build (LFiles files) (temp_dir self), storage)
            else mret (self, storage)
        | None => mret (self, storage)
        end
    | Bitmap data =>
        match data with
        | Some dib_data =>
            let image_hash := hexdigest dib_data in
            if bool_decide (LStr image_hash ≠ last_content self) then
              if decodes dib_data then
                let temp_path :=
                  os_path_join (temp_dir self)
                    ("temp_image_" +:+ String.substring 0 8 image_hash +:+ ".png") in
                made ← os_makedirs (os_path_dirname temp_path);
                if made : bool then
                  saved ← image_save temp_path;
                  if saved : bool then
                    os_path_exists temp_path ;;
                    storage ← _handle_new_content "image" temp_path c storage;
                    mret (Build (LStr image_hash) (temp_dir self), storage)
                  else mret (self, storage)
                else mret (self, storage)
              else mret (self, storage)
            else mret (self, storage)
        | None => mret (self, storage)
        end
    | NoFormat => mret (self, storage)
    end.

End ClipboardMonitor.

(** ** [main_window.py] and [main.py]: what happens on exit *)

Module MainWindow.

Record t := Build {
  storage : Storage.t;
  config : option Config.t
}.

(** The store part of [quit_application]:
    [if self.config and self.config.get_clear_data_on_exit(): clear_all()]. *)
Definition quit_application (self : t) : Eff t :=
  match config self with
  | Some cfg =>
      if truthy (Config.get_clear_data_on_exit cfg) then
        storage ← Storage.clear_all (storage self);
        mret (Build storage (config self))
      else mret self
  | None => mret self
  end.

End MainWindow.

Module Main.

(** [main()] up to the event loop: [Storage()], [ClipboardMonitor(storage)]
    and [MainWindow(storage, monitor)], each with its default arguments.
    [storage_file] and [monitor_file] are the [__file__] of the two modules;
    an exception of the monitor's constructor ends [main()] ([None]). *)
Definition main (storage_file monitor_file : string) (current_time : Z)
    : Eff (option (MainWindow.t * ClipboardMonitor.t)) :=
  storage ← Storage.__init__ storage_file None (VInt 50) current_time;
  monitor ← ClipboardMonitor.__init__ monitor_file;
  mret (match monitor with
        | Some monitor => Some (MainWindow.Build storage None, monitor)
        | None => None
        end).

End Main.

(** ** Vocabulary of the properties *)

(** Paths named by the image records of a list. *)
Definition image_paths (rs : list record) : list string :=
  content <$> filter (λ r, type r = "image") rs.

(** What dropping one record does to the disk, and a list of them. *)
Definition unlink_image (fs : gmap string node) (r : record) : gmap string node :=
  if bool_decide (type r = "image") && is_file fs (content r)
  then delete (content r) fs else fs.

Definition unlink_images (rs : list record) (fs : gmap string node) : gmap string node :=
  foldl unlink_image fs rs.

(** What [json.dump] into [p] does to the disk. *)
Definition write_file (p : string) (doc : document) (fs : gmap string node)
    : gmap string node :=
  if is_dir fs p then fs else <[p := File doc]> fs.

(** What the settings file says: the object it holds, or the object a list
    of pairs amounts to; nothing otherwise. *)
Definition stored_settings (found : option node) : gmap string value :=
  match found with
  | Some (File (Settings kv)) => kv
  | Some (File (Pairs first rest)) => list_to_map (reverse (first :: rest))
  | _ => ∅
  end.

(** The age limit in seconds a store works with, if it has one. *)
Definition max_age_seconds (self : Storage.t) : option Z :=
  cfg ← Storage.config self;
  m ← int_of (Config.get_max_age_minutes cfg);
  Some (Z.of_nat m * 60).

(** A record is fresh at [current_time] when its age is within the limit. *)
Definition fresh (current_time : Z) (limit : option Z) (r : record) : Prop :=
  match limit with
  | Some s => current_time - id r ≤ s
  | None => True
  end.

#[global] Instance fresh_dec current_time limit r : Decision (fresh current_time limit r).
Proof. destruct limit; simpl; apply _. Defined.

Arguments fresh : simpl never.

(** Descending order of [id]. *)
Definition descending (rs : list record) : Prop :=
  StronglySorted (λ a b, id b ≤ id a) rs.

(** The key that [add_record] compares. *)
Definition key (r : record) : string * string := (content r, type r).

(** The count limit holds. *)
Definition within_limit (self : Storage.t) : Prop :=
  ∀ n, int_of (Storage.max_records self) = Some n →
       (length (Storage.records self) ≤ n)%nat.

(** The states a store goes through: built by [__init__], then any of its
    public methods, each on whatever the disk holds at that moment.  The
    [Config] object is shared with the settings dialog, whose setters change
    it between two calls.  [allowed r rs] restricts the records that are
    added to a store holding [rs]. *)
Inductive reachable (allowed : record → list record → Prop) : Storage.t → Prop :=
  | reach_init file__ cfg max_records now w :
      reachable allowed (Storage.__init__ file__ cfg max_records now w).1
  | reach_add_record self r now w :
      reachable allowed self → allowed r (Storage.records self) →
      reachable allowed (Storage.add_record r now self w).1
  | reach_update_config self cfg now w :
      reachable allowed self →
      reachable allowed (Storage.update_config cfg now self w).1
  | reach_delete_record self record_id w :
      reachable allowed self →
      reachable allowed (Storage.delete_record record_id self w).1
  | reach_delete_multiple self record_ids w :
      reachable allowed self →
      reachable allowed (Storage.delete_multiple record_ids self w).1
  | reach_clear_all self w :
      reachable allowed self →
      reachable allowed (Storage.clear_all self w).1
  | reach_config_set self cfg cfg' :
      reachable allowed self → Storage.config self = Some cfg →
      reachable allowed
        (Storage.Build (Some cfg') (Storage.max_records self)
           (Storage.data_file self) (Storage.records self)).

(** Any record may be added. *)
Definition any_record : record → list record → Prop := λ _ _, True.

(** The added record is at least as recent as everything in the list. *)
Definition newest : record → list record → Prop :=
  λ r rs, ∀ e, e ∈ rs → id e ≤ id r.

(** "Delete every file in the temp-images directory whose path is not the
    content of any surviving image record", as a map over the disk. *)
Definition orphan (d : string) (survivors : list record) (p : string) (n : node) : Prop :=
  is_Some (child_name d p) ∧ n ≠ Dir ∧ p ∉ image_paths survivors.

#[global] Instance orphan_dec d survivors p n : Decision (orphan d survivors p n).
Proof. unfold orphan. apply _. Defined.

(** One round of the loop over the directory listing. *)
Definition sweep (d : string) (refs : gset string)
    (fs : gmap string node) (filename : string) : gmap string node :=
  let file_path := os_path_join d filename in
  if is_file fs file_path && bool_decide (file_path ∉ refs)
  then delete file_path fs else fs.

Definition remove_orphans (d : string) (survivors : list record)
    (fs : gmap string node) : gmap string node :=
  if is_dir fs d
  then filter (λ kv, ¬ orphan d survivors kv.1 kv.2) fs
  else fs.

(** ** [storage.py]: the observers of a store *)

Module Observers.

(** An object registered with [add_observer]: which object it is, the
    methods it has, and whether calling it raises. *)
Record observer := Observer {
  ident : nat;
  has_on_storage_change : bool;
  has_update : bool;
  raises : bool
}.

#[global] Instance observer_eq_dec : EqDecision observer.
Proof. solve_decision. Defined.

(** A method call that [notify_change] makes. *)
Inductive notification :=
  | OnStorageChange (who : nat)
  | Update (who : nat).

(** [list.remove(x)] *)
Fixpoint list_remove (x : observer) (l : list observer) : list observer :=
  match l with
  | [] => []
  | y :: l' => if bool_decide (y = x) then l' else y :: list_remove x l'
  end.

Definition add_observer (o : observer) (observers : list observer) : list observer :=
  if bool_decide (o ∉ observers) then observers ++ [o] else observers.

Definition remove_observer (o : observer) (observers : list observer) : list observer :=
  if bool_decide (o ∈ observers) then list_remove o observers else observers.

(** The calls made by the loop of [notify_change], in order.  The
    [try/except] inside the loop makes a raising observer as good as a
    returning one for the rest of the loop. *)
Fixpoint notify_change (observers : list observer) : list notification :=
  match observers with
  | [] => []
  | o :: rest =>
      let made :=
        if has_on_storage_change o then [OnStorageChange (ident o)]
        else if has_update o then [Update (ident o)]
        else [] in
      made ++ notify_change rest
  end.

End Observers.

(** ** [settings_dialog.py] and the settings action of [main_window.py] *)

Module SettingsDialog.

(** What the user left in the dialog: the value of the checked radio
    button of each group ([None] when no button is checked) and the state
    of the check box. *)
Record choice := Choice {
  selected_records : option value;
  selected_time : option value;
  clear_data_checked : bool
}.

Definition accept_settings (ch : choice) (config : Config.t) : Eff Config.t :=
  config ←
    (match selected_records ch with
     | Some max_records => Config.set_max_records max_records config
     | None => mret config
     end);
  config ←
    (match selected_time ch with
     | Some max_age_minutes => Config.set_max_age_minutes max_age_minutes config
     | None => mret config
     end);
  Config.set_clear_data_on_exit (VBool (clear_data_checked ch)) config.

End SettingsDialog.

Module SettingsAction.

(** [MainWindow.show_settings]: nothing without a [Config]; otherwise the
    dialog runs ([accepted] is [None] when it is cancelled) on the window's
    [Config] object, and on acceptance the store takes the new settings.
    [load_records] only redraws the list. *)
Definition show_settings (accepted : option SettingsDialog.choice) (current_time : Z)
    (self : MainWindow.t) : Eff MainWindow.t :=
  match MainWindow.config self with
  | None => mret self
  | Some config =>
      match accepted with
      | Some ch =>
          config ← SettingsDialog.accept_settings ch config;
          storage ← Storage.update_config config current_time (MainWindow.storage self);
          mret (MainWindow.Build storage (Some config))
      | None => mret self
      end
  end.

End SettingsAction.

(** ** Sample states *)

Definition sample_file : string := "/app/src/storage.py".

Definition sample_image : record :=
  Build_record 10 "/app/temp_images/temp_image_0a1b2c3d.png" "image"
    "2024-05-01 10:00:10" false.

Definition sample_text : record :=
  Build_record 20 "hello" "text" "2024-05-01 10:00:20" false.

Definition sample_disk : gmap string node :=
  {[ "/app" := Dir;
     "/app/temp_images" := Dir;
     "/app/temp_images/temp_image_0a1b2c3d.png" := File Garbage;
     "/app/temp_images/temp_image_ffffffff.png" := File Garbage;
     "/app/clipboard_data.json" := File (Records [sample_image; sample_text]) ]}.

Definition sample_world : world := World sample_disk [].

(** [Storage()] as [main()] builds it, thirty seconds after the last copy. *)
Definition sample_store : Storage.t :=
  (Storage.__init__ sample_file None (VInt 50) 30 sample_world).1.

(** The text copied once more. *)
Definition sample_text_again : record :=
  Build_record 40 "hello" "text" "2024-05-01 10:00:40" false.

(** Settings as the dialog writes them: ten records, five minutes. *)
Definition sample_config : Config.t :=
  Config.Build "/app/config.json"
    {[ "max_records" := VInt 10;
       "max_age_minutes" := VInt 5;
       "clear_data_on_exit" := VBool true ]}.

(** A store that holds the two sample records under these settings. *)
Definition sample_aged_store : Storage.t :=
  Storage.Build (Some sample_config) (VInt 10) "/app/clipboard_data.json"
    [sample_text; sample_image].

(** Settings that allow one record. *)
Definition tight_config : Config.t :=
  Config.Build "/app/config.json"
    {[ "max_records" := VInt 1;
       "max_age_minutes" := VNone;
       "clear_data_on_exit" := VBool true ]}.

Definition tight_world : world :=
  World {[ "/app" := Dir;
           "/app/temp_images" := Dir;
           "/app/temp_images/temp_image_0a1b2c3d.png" := File Garbage;
           "/app/clipboard_data.json" := File (Records [sample_image]) ]} [].

(** An installation without history: the program directory and the
    directory the monitor creates. *)
Definition blank_world : world :=
  World {[ "/app" := Dir; "/app/temp_images" := Dir ]} [].

(** Two copies that got the same timestamp. *)
Definition twin_text : record :=
  Build_record 5 "report.txt" "text" "2024-05-01 10:00:05" false.

Definition twin_image : record :=
  Build_record 5 "/app/temp_images/temp_image_0a1b2c3d.png" "image"
    "2024-05-01 10:00:05" false.

(** The store after both were added, the image last, and the disk with the
    image the monitor saved. *)
Definition twin_state : Storage.t * world :=
  let s0 := Storage.__init__ sample_file None (VInt 50) 5 blank_world in
  let s1 := Storage.add_record twin_text 5 s0.1 s0.2 in
  let w := World (<["/app/temp_images/temp_image_0a1b2c3d.png" := File Garbage]> (files s1.2))
                 (calls s1.2) in
  Storage.add_record twin_image 5 s1.1 w.

(** A later copy, a history of three out of order, and settings that allow
    one record of at most five minutes. *)
Definition sample_note : record :=
  Build_record 25 "world" "text" "2024-05-01 10:00:25" false.

Definition crowded_world : world :=
  World (<["/app/clipboard_data.json" :=
             File (Records [sample_image; sample_note; sample_text])]> sample_disk) [].

Definition strict_config : Config.t :=
  Config.Build "/app/config.json"
    {[ "max_records" := VInt 1;
       "max_age_minutes" := VInt 5;
       "clear_data_on_exit" := VBool true ]}.

(** A bitmap that decodes. *)
Definition sample_bitmap : ClipboardMonitor.dib :=
  ClipboardMonitor.Dib "e4d909c290d0fb1ca068ffaddf22cbd0" true.

(** A poll that finds a bitmap [Image.open] rejects. *)
Definition broken_bitmap : ClipboardMonitor.dib :=
  ClipboardMonitor.Dib "9e107d9d372bb6826bd81d3542a419d6" false.

Definition sample_monitor : ClipboardMonitor.t :=
  ClipboardMonitor.Build ClipboardMonitor.LNone "/app/temp_images".

Definition sample_clock : ClipboardMonitor.clock :=
  ClipboardMonitor.Clock 40 "2024-05-01 10:00:40" 40.

(** A disk with history and without [config.json]. *)
Definition unconfigured_world : world :=
  World {[ "/app" := Dir;
           "/app/clipboard_data.json" := File (Records [sample_text]) ]} [].

(** The dialog closed with twenty records, ten minutes, keep on exit. *)
Definition sample_choice : SettingsDialog.choice :=
  SettingsDialog.Choice (Some (VInt 20)) (Some (VInt 10)) false.

(** A disk with a settings file that names one setting only. *)
Definition partial_config_world : world :=
  World {[ "/app" := Dir;
           "/app/config.json" := File (Settings {[ "max_records" := VInt 30 ]}) ]} [].

(** A disk with a settings file written as a list of pairs, one setting
    named twice. *)
Definition pairs_config_world : world :=
  World {[ "/app" := Dir;
           "/app/config.json" :=
             File (Pairs ("max_records", VInt 10)
                     [("clear_data_on_exit", VBool false);
                      ("max_records", VInt 20)]) ]} [].

(** The main window and a legacy listener. *)
Definition window_observer : Observers.observer := Observers.Observer 1 true false false.
Definition legacy_observer : Observers.observer := Observers.Observer 2 false true true.

(** * Properties *)

#[local] Set Warnings "-clear-no-such-hyp".

Ltac eff_unfold := unfold mbind, mret, Eff_bind, Eff_ret in *; cbn [fst snd] in *.

Ltac bool_hyps :=
  repeat match goal with
  | H : bool_decide _ = true |- _ => apply bool_decide_eq_true in H
  | H : bool_decide _ = false |- _ => apply bool_decide_eq_false in H
  end.

(** ** The disk under the deletion loops *)

Section Deletion.

Lemma image_paths_elem p rs :
  p ∈ image_paths rs ↔ ∃ r, r ∈ rs ∧ type r = "image" ∧ content r = p.
Proof.
  unfold image_paths. rewrite list_elem_of_fmap. split.
  - intros (r & Heq & Hr). apply list_elem_of_filter in Hr. naive_solver.
  - intros (r & Hr & Ht & <-). exists r. split; [done|].
    apply list_elem_of_filter. done.
Qed.

Lemma delete_image_of_files r w :
  files (Storage.delete_image_of r w).2 = unlink_image (files w) r.
Proof.
  unfold Storage.delete_image_of, unlink_image, if_exists.
  case_bool_decide; [|done]. eff_unfold. simpl.
  unfold delete_file_permanently, is_file. simpl.
  destruct (files w !! content r) as [[|]|] eqn:E; simpl; rewrite ?E; done.
Qed.

Lemma for_delete_files rs w :
  files (for_ rs Storage.delete_image_of w).2 = unlink_images rs (files w).
Proof.
  revert w. induction rs as [|r rs IH]; intros w; [done|].
  simpl. eff_unfold.
  destruct (Storage.delete_image_of r w) as [[] w'] eqn:E.
  rewrite IH. unfold unlink_images. simpl. f_equal.
  rewrite <- delete_image_of_files. by rewrite E.
Qed.

(** Nothing is called for a list without image records. *)
Lemma for_delete_no_image rs w :
  Forall (λ r, type r ≠ "image") rs →
  for_ rs Storage.delete_image_of w = (tt, w).
Proof.
  induction 1 as [|r rs Hr _ IH]; [done|].
  simpl. eff_unfold. unfold Storage.delete_image_of at 1.
  rewrite bool_decide_false by done. eff_unfold. done.
Qed.

Lemma unlink_image_lookup fs r p :
  unlink_image fs r !! p =
    if bool_decide (type r = "image") && bool_decide (content r = p) && is_file fs p
    then None else fs !! p.
Proof.
  unfold unlink_image.
  destruct (bool_decide (type r = "image")); simpl; [|done].
  case_bool_decide as H; simpl.
  - subst. destruct (is_file fs (content r)); [by rewrite lookup_delete_eq|done].
  - destruct (is_file fs (content r)); [by rewrite lookup_delete_ne|done].
Qed.

Lemma unlink_images_lookup rs fs p :
  unlink_images rs fs !! p =
    if bool_decide (p ∈ image_paths rs) && is_file fs p then None else fs !! p.
Proof.
  revert fs. induction rs as [|r rs IH]; intros fs; [done|].
  unfold unlink_images in *. simpl. rewrite IH.
  unfold is_file at 1. rewrite !unlink_image_lookup.
  assert (Hin : p ∈ image_paths (r :: rs) ↔
            (type r = "image" ∧ content r = p) ∨ p ∈ image_paths rs).
  { rewrite !image_paths_elem. setoid_rewrite elem_of_cons. naive_solver. }
  destruct (bool_decide (type r = "image")) eqn:Et;
    destruct (bool_decide (content r = p)) eqn:Ec;
    destruct (bool_decide (p ∈ image_paths rs)) eqn:Ep;
    destruct (bool_decide (p ∈ image_paths (r :: rs))) eqn:Eq;
    unfold is_file; destruct (fs !! p) as [[|]|] eqn:Ef; simpl; try done;
    bool_hyps; exfalso; naive_solver.
Qed.

(** After the loop, no image record of the list has a file left. *)
Lemma unlink_images_gone rs fs r :
  r ∈ rs → type r = "image" → is_file (unlink_images rs fs) (content r) = false.
Proof.
  intros Hr Ht. unfold is_file at 1. rewrite unlink_images_lookup.
  rewrite bool_decide_true by (apply image_paths_elem; eauto). simpl.
  unfold is_file. destruct (fs !! content r) as [[|]|]; done.
Qed.

(** The loop creates nothing. *)
Lemma unlink_images_is_file rs fs p :
  is_file (unlink_images rs fs) p = true → is_file fs p = true.
Proof.
  unfold is_file at 1. rewrite unlink_images_lookup.
  destruct (bool_decide _ && _); [done|]. unfold is_file.
  destruct (fs !! p) as [[|]|]; done.
Qed.

Lemma unlink_images_is_dir rs fs p :
  is_dir (unlink_images rs fs) p = is_dir fs p.
Proof.
  unfold is_dir at 1. rewrite unlink_images_lookup.
  unfold is_file, is_dir.
  destruct (bool_decide _); destruct (fs !! p) as [[|]|]; done.
Qed.

End Deletion.

(** ** The private methods of the store *)

Section Methods.

Lemma age_step_foldl now s l f0 d0 :
  foldl (Storage.age_step now s) (f0, d0) l =
    (f0 ++ filter (λ r, now - id r ≤ s) l, d0 ++ filter (λ r, ¬ now - id r ≤ s) l).
Proof.
  revert f0 d0. induction l as [|r l IH]; intros f0 d0.
  - simpl. by rewrite !app_nil_r.
  - simpl. unfold Storage.age_step at 2. simpl. case_bool_decide as H.
    + rewrite IH, filter_cons_True, filter_cons_False by tauto.
      by rewrite <- app_assoc.
    + rewrite IH, filter_cons_False, filter_cons_True by tauto.
      by rewrite <- app_assoc.
Qed.

Lemma filter_fresh_None now (l : list record) :
  filter (fresh now None) l = l.
Proof.
  induction l as [|r l IH]; [done|].
  rewrite filter_cons_True by (by unfold fresh). by rewrite IH.
Qed.

Lemma filter_stale_None now (l : list record) :
  filter (λ r, ¬ fresh now None r) l = [].
Proof.
  induction l as [|r l IH]; [done|].
  rewrite filter_cons_False; [done|]. unfold fresh. tauto.
Qed.

(** [_filter_by_age]: the survivors are the fresh records, in their
    order, and the disk loses the files of the stale image records. *)
Lemma filter_by_age_spec now self w :
  let out := Storage._filter_by_age now self w in
  out.1 = Storage.set_records
            (filter (fresh now (max_age_seconds self)) (Storage.records self)) self
  ∧ files out.2 =
      unlink_images
        (filter (λ r, ¬ fresh now (max_age_seconds self) r) (Storage.records self))
        (files w).
Proof.
  unfold Storage._filter_by_age, max_age_seconds.
  destruct self as [cfg mr df rs]. cbn [Storage.config Storage.records].
  destruct cfg as [cfg|]; cbn [mbind option_bind].
  2: { eff_unfold. rewrite filter_fresh_None, filter_stale_None. done. }
  destruct (int_of (Config.get_max_age_minutes cfg)) as [m|]; cbn [mbind option_bind].
  2: { eff_unfold. rewrite filter_fresh_None, filter_stale_None. done. }
  rewrite age_step_foldl. cbn [app]. eff_unfold.
  pose proof (for_delete_files
    (filter (λ r, ¬ now - id r ≤ Z.of_nat m * 60) rs) w) as Hf.
  destruct (for_ _ _ w) as [[] w']. cbn [fst snd] in *. split; [done|].
  exact Hf.
Qed.

End Methods.

Section MethodsTwo.

Lemma truncate_length mr rs n :
  int_of mr = Some n → (length (Storage.truncate mr rs) ≤ n)%nat.
Proof.
  intros H. unfold Storage.truncate. rewrite H, length_take. lia.
Qed.

Lemma truncate_idemp mr rs :
  Storage.truncate mr (Storage.truncate mr rs) = Storage.truncate mr rs.
Proof.
  unfold Storage.truncate. destruct (int_of mr); [|done].
  by rewrite take_take, Nat.min_id.
Qed.

Lemma truncate_within mr rs :
  (∀ n, int_of mr = Some n → (length rs ≤ n)%nat) → Storage.truncate mr rs = rs.
Proof.
  intros H. unfold Storage.truncate. destruct (int_of mr) as [n|]; [|done].
  apply take_ge. by apply H.
Qed.

Lemma truncate_sublist mr rs : Storage.truncate mr rs `sublist_of` rs.
Proof.
  unfold Storage.truncate. destruct (int_of mr); [apply sublist_take|done].
Qed.

(** [_save_data]: the list is cut to the limit, the files of the image
    records beyond it go, and the list is written to the data file. *)
Lemma save_data_spec self w :
  let out := Storage._save_data self w in
  let kept := Storage.truncate (Storage.max_records self) (Storage.records self) in
  out.1 = Storage.set_records kept self
  ∧ files out.2 =
      write_file (Storage.data_file self) (Records kept)
        (unlink_images
           (Storage.overflow (Storage.max_records self) (Storage.records self))
           (files w)).
Proof.
  unfold Storage._save_data, Storage.truncate, Storage.overflow.
  destruct self as [cfg mr df rs]. cbn [Storage.max_records Storage.records].
  destruct (int_of mr) as [n|].
  - case_bool_decide as Hn.
    + eff_unfold. pose proof (for_delete_files (drop n rs) w) as Hf.
      destruct (for_ _ _ w) as [[] w']. cbn [fst snd] in *.
      unfold json_dump, write_file. cbn [Storage.data_file Storage.records Storage.set_records].
      rewrite <- Hf. destruct (is_dir (files w') df); by (split; simpl).
    + eff_unfold. unfold json_dump, write_file, Storage.set_records.
      cbn [Storage.data_file Storage.records Storage.config Storage.max_records].
      rewrite take_ge, drop_ge by lia.
      destruct (is_dir (files w) df) eqn:E; split; simpl; rewrite ?E; done.
  - eff_unfold. unfold json_dump, write_file, Storage.set_records.
    cbn [Storage.data_file Storage.records Storage.config Storage.max_records].
    destruct (is_dir (files w) df) eqn:E; split; simpl; rewrite ?E; done.
Qed.

(** Within the limit, [_save_data] is one write and nothing else. *)
Lemma save_data_within self w :
  within_limit self →
  Storage._save_data self w =
    (self,
     World (write_file (Storage.data_file self) (Records (Storage.records self)) (files w))
           (calls w ++ [OpenWrite (Storage.data_file self)])).
Proof.
  intros Hl. unfold Storage._save_data, within_limit in *.
  destruct (int_of (Storage.max_records self)) as [n|].
  - specialize (Hl n eq_refl). rewrite bool_decide_false by lia.
    eff_unfold. unfold json_dump, write_file, log.
    destruct (is_dir (files w) _); done.
  - eff_unfold. unfold json_dump, write_file, log.
    destruct (is_dir (files w) _); done.
Qed.

(** *** The scan for a duplicate *)

Lemma find_duplicate_Some r rs i :
  Storage.find_duplicate r rs = Some i →
  ∃ pre e post,
    rs = pre ++ e :: post ∧ length pre = i ∧ key e = key r ∧
    Forall (λ x, key x ≠ key r) pre.
Proof.
  revert i. induction rs as [|x rs IH]; intros i H; [done|].
  simpl in H. destruct (bool_decide (content x = content r) && bool_decide (type x = type r)) eqn:E.
  - inversion H; subst. exists [], x, rs. split_and!; try done.
    apply andb_true_iff in E as [? ?]. bool_hyps. unfold key. congruence.
  - destruct (Storage.find_duplicate r rs) as [j|] eqn:Ej; [|done].
    simpl in H. inversion H; subst.
    destruct (IH j eq_refl) as (pre & e & post & -> & Hlen & Hk & Hpre).
    exists (x :: pre), e, post. split_and!; try done.
    + simpl. by rewrite Hlen.
    + constructor; [|done]. unfold key. intros Hx. inversion Hx as [[Hc Ht]].
      rewrite !bool_decide_true in E by done. done.
Qed.

Lemma find_duplicate_None r rs :
  Storage.find_duplicate r rs = None ↔ Forall (λ x, key x ≠ key r) rs.
Proof.
  induction rs as [|x rs IH]; [done|]. simpl.
  destruct (bool_decide (content x = content r) && bool_decide (type x = type r)) eqn:E.
  - split; [done|]. intros H. inversion H as [|?? Hx _]; subst. exfalso. apply Hx.
    apply andb_true_iff in E as [? ?]. bool_hyps. unfold key. congruence.
  - rewrite Forall_cons, <- IH.
    assert (Hx : key x ≠ key r).
    { unfold key. intros Hx. inversion Hx as [[Hc Ht]].
      rewrite !bool_decide_true in E by done. done. }
    destruct (Storage.find_duplicate r rs); simpl; naive_solver.
Qed.

Lemma key_bump e r : key e = key r → key (Storage.bump e r) = key r.
Proof. done. Qed.

(** [list.remove] finds the record that was just updated in place. *)
Lemma list_remove_middle e' pre post :
  Forall (λ x, key x ≠ key e') pre →
  Storage.list_remove e' (pre ++ e' :: post) = pre ++ post.
Proof.
  induction 1 as [|x pre Hx _ IH]; simpl.
  - by rewrite bool_decide_true.
  - rewrite bool_decide_false by congruence. by rewrite IH.
Qed.

End MethodsTwo.

Section Operations.

Lemma eff_bind_run {A B} (m : Eff A) (f : A → Eff B) w :
  (m ≫= f) w = f (m w).1 (m w).2.
Proof. unfold mbind, Eff_bind. by destruct (m w). Qed.

Lemma eff_ret_run {A} (x : A) w : mret (M := Eff) x w = (x, w).
Proof. done. Qed.

Lemma filter_by_age_self now self w :
  (Storage._filter_by_age now self w).1 =
    Storage.set_records
      (filter (fresh now (max_age_seconds self)) (Storage.records self)) self.
Proof. apply filter_by_age_spec. Qed.

Lemma save_data_self self w :
  (Storage._save_data self w).1 =
    Storage.set_records
      (Storage.truncate (Storage.max_records self) (Storage.records self)) self.
Proof. apply save_data_spec. Qed.

Lemma find_duplicate_middle r pre e post :
  Forall (λ x, key x ≠ key r) pre → key e = key r →
  Storage.find_duplicate r (pre ++ e :: post) = Some (length pre).
Proof.
  intros Hpre He. induction Hpre as [|x pre Hx _ IH]; simpl.
  - inversion He as [[Hc Ht]]. by rewrite !bool_decide_true.
  - rewrite IH. unfold key in Hx.
    destruct (bool_decide (content x = content r)) eqn:Ec;
      destruct (bool_decide (type x = type r)) eqn:Et; simpl; try done.
    bool_hyps. congruence.
Qed.

(** [add_record] on a duplicate: the first match is updated, taken out of
    the list and put in front; then the list is saved. *)
Lemma add_record_duplicate r now self w pre e post :
  Storage.records self = pre ++ e :: post →
  key e = key r → Forall (λ x, key x ≠ key r) pre →
  Storage.add_record r now self w =
    Storage._save_data
      (Storage.set_records (Storage.bump e r :: pre ++ post) self) w.
Proof.
  intros Hrs He Hpre. unfold Storage.add_record.
  rewrite Hrs, (find_duplicate_middle r pre e post) by done.
  rewrite list_lookup_middle by done.
  replace (<[length pre:=Storage.bump e r]> (pre ++ e :: post))
    with (pre ++ Storage.bump e r :: post).
  2: { rewrite insert_app_r_alt by lia. by rewrite Nat.sub_diag. }
  rewrite list_remove_middle; [done|].
  eapply Forall_impl; [exact Hpre|]. intros x Hx.
  rewrite (key_bump e r He). done.
Qed.

(** [add_record] on new content. *)
Lemma add_record_new r now self w :
  Storage.find_duplicate r (Storage.records self) = None →
  Storage.records (Storage.add_record r now self w).1 =
    Storage.truncate (Storage.max_records self)
      (filter (fresh now (max_age_seconds self)) (r :: Storage.records self)).
Proof.
  intros Hnone. unfold Storage.add_record. rewrite Hnone.
  rewrite eff_bind_run, save_data_self, filter_by_age_self.
  destruct self as [cfg mr df rs]. cbn.
  apply truncate_idemp.
Qed.

Lemma add_record_frame r now self w :
  let out := (Storage.add_record r now self w).1 in
  Storage.config out = Storage.config self ∧
  Storage.max_records out = Storage.max_records self ∧
  Storage.data_file out = Storage.data_file self.
Proof.
  unfold Storage.add_record.
  destruct (Storage.find_duplicate r (Storage.records self)) as [i|].
  - destruct (Storage.records self !! i) as [e|]; [|done].
    rewrite save_data_self. done.
  - rewrite eff_bind_run, save_data_self, filter_by_age_self. done.
Qed.

Lemma update_config_self cfg now self w :
  (Storage.update_config cfg now self w).1 =
    let self' := Storage.Build (Some cfg) (Config.get_max_records cfg)
                   (Storage.data_file self) (Storage.records self) in
    Storage.set_records
      (Storage.truncate (Config.get_max_records cfg)
         (filter (fresh now (max_age_seconds self')) (Storage.records self)))
      self'.
Proof.
  unfold Storage.update_config. cbn zeta.
  rewrite eff_bind_run, filter_by_age_self.
  set (s1 := Storage.set_records _ _).
  rewrite eff_bind_run.
  assert (Hmid : ((match int_of (Storage.max_records s1) with
     | Some n =>
         if bool_decide (n < length (Storage.records s1))%nat then
           for_ (drop n (Storage.records s1)) Storage.delete_image_of ;;
           mret (Storage.set_records (take n (Storage.records s1)) s1)
         else mret s1
     | None => mret s1
     end) ((Storage._filter_by_age now
              (Storage.Build (Some cfg) (Config.get_max_records cfg)
                 (Storage.data_file self) (Storage.records self)) w).2)).1
     = Storage.set_records
         (Storage.truncate (Storage.max_records s1) (Storage.records s1)) s1).
  { unfold Storage.truncate. destruct (int_of (Storage.max_records s1)) as [n|].
    - case_bool_decide.
      + rewrite eff_bind_run. done.
      + rewrite take_ge by lia. by destruct s1.
    - by destruct s1. }
  rewrite Hmid. clear Hmid.
  case_bool_decide.
  - rewrite save_data_self. subst s1. cbn. by rewrite truncate_idemp.
  - done.
Qed.

Lemma delete_record_self record_id self w :
  (Storage.delete_record record_id self w).1 =
    Storage.set_records
      (Storage.truncate (Storage.max_records self)
         (filter (λ r, id r ≠ record_id) (Storage.records self))) self.
Proof.
  unfold Storage.delete_record. rewrite eff_bind_run, save_data_self. done.
Qed.

Lemma delete_multiple_self record_ids self w :
  (Storage.delete_multiple record_ids self w).1 =
    Storage.set_records
      (Storage.truncate (Storage.max_records self)
         (filter (λ r, id r ∉ record_ids) (Storage.records self))) self.
Proof.
  unfold Storage.delete_multiple. rewrite eff_bind_run, save_data_self. done.
Qed.

Lemma clear_all_self self w :
  (Storage.clear_all self w).1 = Storage.set_records [] self.
Proof.
  unfold Storage.clear_all.
  rewrite !eff_bind_run, save_data_self.
  cbn. unfold Storage.truncate. destruct (int_of _); [by rewrite take_nil|done].
Qed.

End Operations.

(** ** Paths *)

Section Paths.

Lemma append_cons a (s t : string) : String a s +:+ t = String a (s +:+ t).
Proof. done. Qed.

Lemma append_nil_r (s : string) : s +:+ "" = s.
Proof. induction s as [|a s IH]; [done|]. by rewrite append_cons, IH. Qed.

Lemma append_assoc (s t u : string) : (s +:+ t) +:+ u = s +:+ (t +:+ u).
Proof. induction s as [|a s IH]; [done|]. by rewrite !append_cons, IH. Qed.

Lemma strip_prefix_spec pre s r :
  strip_prefix pre s = Some r ↔ s = pre +:+ r.
Proof.
  revert s. induction pre as [|a pre IH]; intros s; simpl.
  - split; [by intros [= ->]|by intros ->].
  - destruct s as [|b s]; [done|]. rewrite append_cons.
    case_bool_decide as H.
    + subst. rewrite IH. split; [by intros ->|by intros [= ->]].
    + split; [done|]. intros [= ? ?]. done.
Qed.

Lemma starts_with_sep_no_sep n : has_sep n = false → starts_with_sep n = false.
Proof. destruct n; simpl; [done|]. by intros [? ?]%orb_false_iff. Qed.

(** Joining a directory with one of its entry names gives the entry's
    path. *)
Lemma os_path_join_entry d n :
  has_sep n = false → os_path_join d n = os_path_join d "" +:+ n.
Proof.
  intros Hn. unfold os_path_join. rewrite (starts_with_sep_no_sep n Hn). simpl.
  destruct (bool_decide (d = "") || ends_with_sep d).
  - by rewrite append_nil_r.
  - by rewrite append_assoc.
Qed.

Lemma child_name_join d p n : child_name d p = Some n → os_path_join d n = p.
Proof.
  unfold child_name. destruct (strip_prefix _ p) as [r|] eqn:E; [|done].
  destruct (bool_decide (r = "") || has_sep r) eqn:Er; [done|].
  intros [= ->]. apply orb_false_iff in Er as [_ Hs].
  rewrite os_path_join_entry by done. symmetry. by apply strip_prefix_spec.
Qed.

End Paths.

(** ** Loading *)

Section Loading.

Lemma sweep_loop_files d refs names w :
  files
    (for_ names (λ filename,
       let file_path := os_path_join d filename in
       f ← os_path_isfile file_path;
       if f && bool_decide (file_path ∉ refs)
       then delete_file_permanently file_path ;; mret tt
       else mret tt) w).2
  = foldl (sweep d refs) (files w) names.
Proof.
  revert w. induction names as [|n names IH]; intros w; [done|].
  cbn [for_ foldl]. rewrite eff_bind_run, IH. f_equal.
  unfold sweep. cbn zeta. rewrite eff_bind_run.
  unfold os_path_isfile at 1 2. cbn [fst snd].
  destruct (is_file (files w) (os_path_join d n)) eqn:Ef; cbn [andb]; [|done].
  case_bool_decide; [|done].
  rewrite eff_bind_run. unfold delete_file_permanently. cbn [files log].
  by rewrite Ef.
Qed.

Lemma sweep_one_lookup d refs fs n p :
  sweep d refs fs n !! p =
    if bool_decide (os_path_join d n = p) && is_file fs p && bool_decide (p ∉ refs)
    then None else fs !! p.
Proof.
  unfold sweep. cbn zeta.
  destruct (decide (os_path_join d n = p)) as [<-|Hne].
  - rewrite (bool_decide_true (_ = _)) by done. cbn [andb].
    destruct (is_file fs _ && _); cbv iota; [by rewrite lookup_delete_eq|done].
  - rewrite (bool_decide_false (_ = _)) by done. cbn [andb].
    destruct (is_file fs _ && _); cbv iota; [by rewrite lookup_delete_ne|done].
Qed.

Lemma sweep_lookup d refs names fs p :
  foldl (sweep d refs) fs names !! p =
    if bool_decide (p ∈ os_path_join d <$> names) && is_file fs p
       && bool_decide (p ∉ refs)
    then None else fs !! p.
Proof.
  revert fs. induction names as [|n names IH]; intros fs; [done|].
  cbn [foldl]. rewrite IH. clear IH.
  assert (Hin : p ∈ os_path_join d <$> (n :: names) ↔
            os_path_join d n = p ∨ p ∈ os_path_join d <$> names).
  { rewrite fmap_cons, elem_of_cons. naive_solver. }
  unfold is_file at 1. rewrite !sweep_one_lookup.
  destruct (bool_decide (p ∈ os_path_join d <$> names)) eqn:Ep;
    destruct (bool_decide (p ∈ os_path_join d <$> (n :: names))) eqn:Eq;
    destruct (bool_decide (p ∉ refs)) eqn:Er;
    destruct (bool_decide (os_path_join d n = p)) eqn:En;
    unfold is_file; destruct (fs !! p) as [[|]|] eqn:Efp; cbn [andb]; try done;
    bool_hyps; exfalso; naive_solver.
Qed.

Lemma listing_elem d (fs : gmap string node) p :
  p ∈ os_path_join d <$> omap (child_name d) (fst <$> map_to_list fs)
  ↔ is_Some (fs !! p) ∧ is_Some (child_name d p).
Proof.
  rewrite list_elem_of_fmap. split.
  - intros (n & -> & Hn). apply list_elem_of_omap in Hn as (q & Hq & Hc).
    apply list_elem_of_fmap in Hq as ([q' x] & -> & Hx). simpl in *.
    apply elem_of_map_to_list in Hx.
    rewrite (child_name_join _ _ _ Hc). eauto.
  - intros ([x Hx] & [n Hn]). exists n. split.
    + symmetry. by apply child_name_join.
    + apply list_elem_of_omap. exists p. split; [|done].
      apply list_elem_of_fmap. exists (p, x). split; [done|].
      by apply elem_of_map_to_list.
Qed.

(** [_cleanup_orphaned_images] removes exactly the orphans. *)
Lemma cleanup_files self w :
  files (Storage._cleanup_orphaned_images self w).2 =
    remove_orphans (Storage.temp_dir self) (Storage.records self) (files w).
Proof.
  unfold Storage._cleanup_orphaned_images, remove_orphans. cbn zeta.
  set (d := Storage.temp_dir self).
  rewrite eff_bind_run. unfold os_path_exists at 1 2. cbn [fst snd].
  unfold is_dir.
  destruct (files w !! d) as [[doc|]|] eqn:Ed; cbn [negb bool_decide decide_rel].
  - rewrite bool_decide_true by eauto. cbn [negb].
    rewrite eff_bind_run. unfold os_listdir, is_dir. cbn [fst snd log files].
    by rewrite Ed.
  - rewrite bool_decide_true by eauto. cbn [negb].
    rewrite eff_bind_run. unfold os_listdir at 1 2, is_dir. cbn [fst snd log files].
    rewrite Ed. rewrite sweep_loop_files. cbn [files].
    apply map_eq. intros p. rewrite sweep_lookup, map_lookup_filter.
    pose proof (listing_elem d (files w) p) as Hl.
    unfold is_file. cbn [files log fst snd].
    destruct (files w !! p) as [x|] eqn:Ep; cbn [mbind option_bind].
    2: { by rewrite andb_false_r. }
    assert (Ho : orphan d (Storage.records self) p x ↔
              (p ∈ os_path_join d <$> omap (child_name d) (fst <$> map_to_list (files w)))
              ∧ x ≠ Dir
              ∧ p ∉ (list_to_set (image_paths (Storage.records self)) : gset string)).
    { unfold orphan. rewrite Hl, elem_of_list_to_set. naive_solver. }
    destruct (decide (orphan d (Storage.records self) p x)) as [Hy|Hn].
    + rewrite option_guard_False by tauto. cbn [mbind option_bind].
      apply Ho in Hy as (H1 & H2 & H3).
      rewrite bool_decide_true by done.
      rewrite (bool_decide_true (_ ∉ _)) by done.
      destruct x; done.
    + rewrite option_guard_True by done. cbn [mbind option_bind].
      destruct (bool_decide (p ∈ _)) eqn:E1; [|done].
      destruct x as [doc|]; [|done].
      destruct (bool_decide (p ∉ _)) eqn:E3; [|done].
      bool_hyps. exfalso. apply Hn, Ho. done.
  - rewrite bool_decide_false; [done|]. by intros [? ?].
Qed.

End Loading.

(** ** Order *)

Section Order.

Lemma descending_sublist l1 l2 :
  l1 `sublist_of` l2 → descending l2 → descending l1.
Proof.
  unfold descending. induction 1 as [|x l1 l2 Hs IH|x l1 l2 Hs IH]; intros Hd.
  - constructor.
  - apply StronglySorted_cons in Hd as [Hx Hd].
    apply StronglySorted_cons. split; [|auto].
    apply Forall_forall. intros y Hy.
    rewrite Forall_forall in Hx. apply Hx. eapply elem_of_sublist; eauto.
  - apply StronglySorted_cons in Hd as [_ Hd]. auto.
Qed.

Lemma insert_desc_perm x l : Storage.insert_desc x l ≡ₚ x :: l.
Proof.
  induction l as [|y l IH]; [done|]. simpl. case_bool_decide; [|done].
  rewrite IH. apply Permutation_swap.
Qed.

Lemma sort_by_id_desc_perm l : Storage.sort_by_id_desc l ≡ₚ l.
Proof.
  induction l as [|x l IH]; [done|].
  unfold Storage.sort_by_id_desc in *. simpl. by rewrite insert_desc_perm, IH.
Qed.

Lemma insert_desc_descending x l :
  descending l → descending (Storage.insert_desc x l).
Proof.
  unfold descending. induction l as [|y l IH]; intros Hd; simpl.
  - repeat constructor.
  - apply StronglySorted_cons in Hd as [Hy Hd]. case_bool_decide as Hlt.
    + apply StronglySorted_cons. split; [|auto].
      rewrite insert_desc_perm. constructor; [lia|done].
    + apply StronglySorted_cons. split.
      * constructor; [lia|]. eapply Forall_impl; [exact Hy|].
        intros z Hz. simpl in Hz. lia.
      * apply StronglySorted_cons. done.
Qed.

Lemma sort_by_id_desc_descending l : descending (Storage.sort_by_id_desc l).
Proof.
  induction l as [|x l IH]; [constructor|].
  unfold Storage.sort_by_id_desc in *. simpl. by apply insert_desc_descending.
Qed.

(** Records with equal ids keep their order: a record goes in front of
    the first one that is not newer. *)
Lemma insert_desc_stable x y l :
  id y ≤ id x → Storage.insert_desc x (y :: l) = x :: y :: l.
Proof. intros H. simpl. by rewrite bool_decide_false by lia. Qed.

End Order.

(** ** Loading and the reachable states *)

Section Reachable.

(** [_load_data], case by case on what is at the data file's path. *)
Lemma load_data_spec now self w :
  let out := Storage._load_data now self w in
  match files w !! Storage.data_file self with
  | Some (File (Records rs)) =>
      let sorted := Storage.sort_by_id_desc rs in
      let limit := max_age_seconds self in
      let kept :=
        Storage.truncate (Storage.max_records self) (filter (fresh now limit) sorted) in
      out.1 = Storage.set_records kept self
      ∧ files out.2 =
          remove_orphans (Storage.temp_dir self) kept
            (unlink_images (filter (λ r, ¬ fresh now limit r) sorted) (files w))
  | Some _ => out.1 = Storage.set_records [] self ∧ files out.2 = files w
  | None => out.1 = self ∧ files out.2 = files w
  end.
Proof.
  unfold Storage._load_data. cbn zeta. rewrite eff_bind_run.
  unfold os_path_exists. cbn [fst snd].
  destruct (files w !! Storage.data_file self) as [[doc|]|] eqn:Ed.
  - rewrite bool_decide_true by eauto. rewrite eff_bind_run.
    unfold json_load. cbn [fst snd log files]. rewrite Ed.
    destruct doc as [rs| | |]; [|split; reflexivity..].
    rewrite !eff_bind_run.
    pose proof (filter_by_age_spec now
      (Storage.set_records (Storage.sort_by_id_desc rs) self)
      (log (OpenRead (Storage.data_file self)) (log (Exists (Storage.data_file self)) w)))
      as [Hs Hf].
    rewrite eff_ret_run. cbn [fst snd].
    rewrite cleanup_files, Hs, Hf. by destruct self.
  - rewrite bool_decide_true by eauto. rewrite eff_bind_run.
    unfold json_load. cbn [fst snd log files]. rewrite Ed.
    split; reflexivity.
  - rewrite bool_decide_false; [split; reflexivity|]. by intros [? ?].
Qed.

Lemma load_data_records now self w :
  ∃ rs,
    (Storage._load_data now self w).1 = Storage.set_records rs self ∧
    (rs = Storage.records self ∨ rs = [] ∨
     ∃ loaded, rs = Storage.truncate (Storage.max_records self)
                      (filter (fresh now (max_age_seconds self))
                         (Storage.sort_by_id_desc loaded))).
Proof.
  pose proof (load_data_spec now self w) as H. cbn zeta in H.
  destruct (files w !! Storage.data_file self) as [[[rs| | |]|]|].
  - destruct H as [-> _]. eauto 6.
  - destruct H as [-> _]. eauto.
  - destruct H as [-> _]. eauto.
  - destruct H as [-> _]. eauto.
  - destruct H as [-> _]. eauto.
  - destruct H as [-> _]. exists (Storage.records self). split; [by destruct self|auto].
Qed.

(** What [add_record] leaves in the list. *)
Lemma add_record_records r now self w :
  let out := (Storage.add_record r now self w).1 in
  (∃ pre e post,
      Storage.records self = pre ++ e :: post ∧ key e = key r ∧
      Forall (λ x, key x ≠ key r) pre ∧
      Storage.records out =
        Storage.truncate (Storage.max_records self) (Storage.bump e r :: pre ++ post))
  ∨ (Forall (λ x, key x ≠ key r) (Storage.records self) ∧
     Storage.records out =
       Storage.truncate (Storage.max_records self)
         (filter (fresh now (max_age_seconds self)) (r :: Storage.records self))).
Proof.
  cbn zeta. destruct (Storage.find_duplicate r (Storage.records self)) as [i|] eqn:E.
  - left. apply find_duplicate_Some in E as (pre & e & post & Hrs & _ & Hk & Hpre).
    exists pre, e, post. split_and!; try done.
    rewrite (add_record_duplicate r now self w pre e post) by done.
    by rewrite save_data_self.
  - right. split; [by apply find_duplicate_None|]. by apply add_record_new.
Qed.

(** The count limit holds in every reachable state. *)
Lemma reachable_within_limit allowed self :
  reachable allowed self → within_limit self.
Proof.
  induction 1 as [file__ cfg mr now w|self r now w _ IH _|self cfg now w _ IH
                 |self rid w _ IH|self rids w _ IH|self w _ IH|self cfg cfg' _ IH _];
    unfold within_limit in *.
  - unfold Storage.__init__.
    match goal with |- context [Storage._load_data now ?s w] =>
      destruct (load_data_records now s w) as (rs & -> & Hrs) end.
    cbn. intros n Hn. destruct Hrs as [->|[->|[loaded ->]]]; cbn; try lia.
    by apply truncate_length.
  - pose proof (add_record_frame r now self w) as (_ & Hm & _). cbn zeta in Hm.
    rewrite Hm. intros n Hn.
    destruct (add_record_records r now self w) as [(pre & e & post & _ & _ & _ & ->)|[_ ->]];
      by apply truncate_length.
  - rewrite update_config_self. cbn. intros n Hn. by apply truncate_length.
  - rewrite delete_record_self. cbn. intros n Hn. by apply truncate_length.
  - rewrite delete_multiple_self. cbn. intros n Hn. by apply truncate_length.
  - rewrite clear_all_self. cbn. intros n Hn. lia.
  - cbn. done.
Qed.

Lemma descending_truncate mr rs :
  descending rs → descending (Storage.truncate mr rs).
Proof. apply descending_sublist, truncate_sublist. Qed.

Lemma descending_filter (P : record → Prop) `{!∀ x, Decision (P x)} rs :
  descending rs → descending (filter P rs).
Proof. apply descending_sublist, sublist_filter. Qed.

Lemma descending_cons_newest r rs :
  newest r rs → descending rs → descending (r :: rs).
Proof.
  intros Hn Hd. apply StronglySorted_cons. split; [|done].
  apply Forall_forall. intros e He. by apply Hn.
Qed.

(** Descending order holds in every state reached by adding records that
    are at least as recent as the ones held. *)
Lemma reachable_descending self :
  reachable newest self → descending (Storage.records self).
Proof.
  induction 1 as [file__ cfg mr now w|self r now w _ IH Hr|self cfg now w _ IH
                 |self rid w _ IH|self rids w _ IH|self w _ IH|self cfg cfg' _ IH _].
  - unfold Storage.__init__.
    match goal with |- context [Storage._load_data now ?s w] =>
      destruct (load_data_records now s w) as (rs & -> & Hrs) end.
    cbn. destruct Hrs as [->|[->|[loaded ->]]]; cbn; try constructor.
    apply descending_truncate, descending_filter, sort_by_id_desc_descending.
  - destruct (add_record_records r now self w)
      as [(pre & e & post & Hrs & _ & _ & ->)|[_ ->]].
    + apply descending_truncate.
      assert (Hsub : pre ++ post `sublist_of` Storage.records self).
      { rewrite Hrs. apply sublist_app; [done|]. by apply sublist_cons. }
      apply StronglySorted_cons. split.
      * apply Forall_forall. intros x Hx. cbn. apply Hr.
        eapply elem_of_sublist; eauto.
      * eapply descending_sublist; eauto.
    + apply descending_truncate, descending_filter.
      by apply descending_cons_newest.
  - rewrite update_config_self. cbn.
    by apply descending_truncate, descending_filter.
  - rewrite delete_record_self. cbn.
    by apply descending_truncate, descending_filter.
  - rewrite delete_multiple_self. cbn.
    by apply descending_truncate, descending_filter.
  - rewrite clear_all_self. cbn. constructor.
  - done.
Qed.

End Reachable.

(** * The claims *)

(** ** Deduplication on insert *)

(** C1. In every state the store can reach, adding a record whose content
    and type match an existing record updates the first such record's id
    and timestamp to the new record's, moves it to the front, and creates no
    further entry: the list keeps its length and its contents and types. *)
Theorem add_record_duplicate_moves_to_front self r now w :
  reachable any_record self →
  (∃ e, e ∈ Storage.records self ∧ content e = content r ∧ type e = type r) →
  let out := (Storage.add_record r now self w).1 in
  ∃ pre e post,
    Storage.records self = pre ++ e :: post ∧
    content e = content r ∧ type e = type r ∧
    Storage.records out =
      Build_record (id r) (content e) (type e) (timestamp r) (favorited e)
        :: pre ++ post ∧
    length (Storage.records out) = length (Storage.records self) ∧
    key <$> Storage.records out ≡ₚ key <$> Storage.records self.
Proof.
  intros Hreach (e0 & He0 & Hc0 & Ht0) out.
  apply reachable_within_limit in Hreach.
  destruct (add_record_records r now self w)
    as [(pre & e & post & Hrs & Hk & Hpre & Hout)|[Hnone _]].
  2: { rewrite Forall_forall in Hnone. exfalso. apply (Hnone e0 He0).
       unfold key. congruence. }
  fold out in Hout.
  assert (Hlen : length (Storage.bump e r :: pre ++ post) = length (Storage.records self)).
  { rewrite Hrs. cbn. rewrite !length_app. cbn. lia. }
  rewrite truncate_within in Hout.
  2: { intros n Hn. rewrite Hlen. by apply Hreach. }
  exists pre, e, post. inversion Hk as [[Hc Ht]].
  split_and!; try done.
  - by rewrite Hout.
  - rewrite Hout, Hrs. cbn. rewrite !fmap_app. cbn.
    rewrite <- Permutation_middle. unfold key at 1 4. cbn.
    by rewrite Hc, Ht.
Qed.

(** The sample store holds ["hello"]; it is copied again. *)
Lemma add_record_duplicate_moves_to_front_witness :
  let out := (Storage.add_record sample_text_again 40 sample_store sample_world).1 in
  ∃ pre e post,
    Storage.records sample_store = pre ++ e :: post ∧
    content e = content sample_text_again ∧ type e = type sample_text_again ∧
    Storage.records out =
      Build_record (id sample_text_again) (content e) (type e)
        (timestamp sample_text_again) (favorited e) :: pre ++ post ∧
    length (Storage.records out) = length (Storage.records sample_store) ∧
    key <$> Storage.records out ≡ₚ key <$> Storage.records sample_store.
Proof.
  apply (add_record_duplicate_moves_to_front sample_store sample_text_again 40 sample_world).
  - apply reach_init.
  - exists sample_text. split; [|done]. vm_compute. repeat constructor.
Defined.

(** ** Order of the list *)

Lemma descending_adjacent rs i a b :
  descending rs → rs !! i = Some a → rs !! S i = Some b → id b ≤ id a.
Proof.
  intros Hd. revert i. induction Hd as [|x rs Hd IH Hx]; intros i Ha Hb; [done|].
  destruct i as [|i]; cbn in *.
  - inversion Ha; subst. rewrite Forall_forall in Hx. apply Hx.
    eapply list_elem_of_lookup_2; eauto.
  - eauto.
Qed.

(** C8. In every state reached from loading by [add_record],
    [delete_record], [delete_multiple], [update_config] and [clear_all],
    where each added record's id is at least every id in the list, each
    record's id is at least the id of the record after it. *)
Theorem records_kept_in_descending_order self i earlier later :
  reachable newest self →
  Storage.records self !! i = Some earlier →
  Storage.records self !! S i = Some later →
  id later ≤ id earlier.
Proof.
  intros Hreach. apply descending_adjacent. by apply reachable_descending.
Qed.

(** The first two records of the sample store after that copy. *)
Lemma records_kept_in_descending_order_witness :
  id sample_image ≤ id sample_text_again.
Proof.
  apply (records_kept_in_descending_order
           (Storage.add_record sample_text_again 40 sample_store sample_world).1
           0 (Storage.bump sample_text sample_text_again) sample_image).
  - apply reach_add_record; [apply reach_init|].
    intros e He. vm_compute in He.
    apply elem_of_cons in He as [->|He]; [vm_compute; discriminate|].
    apply elem_of_cons in He as [->|He]; [vm_compute; discriminate|].
    by apply elem_of_nil in He.
  - vm_compute. reflexivity.
  - vm_compute. reflexivity.
Defined.

(** ** Retention by age *)

(** C4. With [max_age_minutes] set to [M], a pass of [_filter_by_age] at
    time [now] keeps exactly the records whose age [now - id] is at most
    [M * 60] seconds, and no record of type image that was filtered out has
    its file left on disk. *)
Theorem filter_by_age_bounds_age self cfg M now w :
  Storage.config self = Some cfg →
  Config.get_max_age_minutes cfg = VInt M →
  let out := Storage._filter_by_age now self w in
  Storage.records out.1 =
    filter (λ r, now - id r ≤ Z.of_nat M * 60) (Storage.records self) ∧
  (∀ r, r ∈ Storage.records out.1 → now - id r ≤ Z.of_nat M * 60) ∧
  (∀ r, r ∈ Storage.records self → r ∉ Storage.records out.1 →
        type r = "image" → is_file (files out.2) (content r) = false).
Proof.
  intros Hcfg HM out.
  pose proof (filter_by_age_spec now self w) as [Hs Hf]. fold out in Hs, Hf.
  assert (Hlim : max_age_seconds self = Some (Z.of_nat M * 60)).
  { unfold max_age_seconds. rewrite Hcfg. cbn. by rewrite HM. }
  rewrite Hlim in Hs, Hf.
  assert (Hrec : Storage.records out.1 =
            filter (λ r, now - id r ≤ Z.of_nat M * 60) (Storage.records self)).
  { rewrite Hs. done. }
  split_and!; [done|..].
  - intros r Hr. rewrite Hrec in Hr. by apply list_elem_of_filter in Hr as [? _].
  - intros r Hr Hgone Ht. rewrite Hf. apply unlink_images_gone; [|done].
    apply list_elem_of_filter. split; [|done].
    intros Hfresh. apply Hgone. rewrite Hrec. apply list_elem_of_filter. done.
Qed.

(** Five minutes of retention, 315 seconds into the sample history. *)
Lemma filter_by_age_bounds_age_witness :
  let out := Storage._filter_by_age 315 sample_aged_store sample_world in
  Storage.records out.1 =
    filter (λ r, 315 - id r ≤ Z.of_nat 5 * 60) (Storage.records sample_aged_store) ∧
  (∀ r, r ∈ Storage.records out.1 → 315 - id r ≤ Z.of_nat 5 * 60) ∧
  (∀ r, r ∈ Storage.records sample_aged_store → r ∉ Storage.records out.1 →
        type r = "image" → is_file (files out.2) (content r) = false).
Proof.
  apply (filter_by_age_bounds_age sample_aged_store sample_config 5 315 sample_world).
  - reflexivity.
  - vm_compute. reflexivity.
Defined.

(** ** Clearing *)

Lemma if_exists_delete_files p w :
  files (if_exists p (delete_file_permanently p) w).2 =
    if is_file (files w) p then delete p (files w) else files w.
Proof.
  unfold if_exists, os_path_exists, delete_file_permanently, is_file.
  eff_unfold. cbn [files log].
  destruct (files w !! p) as [[doc|]|] eqn:E; cbn; rewrite ?E; done.
Qed.

Lemma if_exists_rmtree_files d w :
  files (if_exists d (shutil_rmtree d) w).2 =
    if is_dir (files w) d
    then filter (λ kv, below d kv.1 = false) (files w) else files w.
Proof.
  unfold if_exists, os_path_exists, shutil_rmtree, is_dir.
  eff_unfold. cbn [files log].
  destruct (files w !! d) as [[doc|]|] eqn:E; cbn; rewrite ?E; done.
Qed.

(** The disk after [clear_all], step by step. *)
Lemma clear_all_files self w :
  let df := Storage.data_file self in
  let td := Storage.temp_dir self in
  let fs1 := unlink_images (Storage.records self) (files w) in
  let fs2 := write_file df (Records []) fs1 in
  let fs3 := if is_file fs2 df then delete df fs2 else fs2 in
  files (Storage.clear_all self w).2 =
    if is_dir fs3 td then filter (λ kv, below td kv.1 = false) fs3 else fs3.
Proof.
  cbn zeta. unfold Storage.clear_all. cbn zeta.
  rewrite !eff_bind_run, eff_ret_run. cbn [snd].
  rewrite save_data_self.
  change (Storage.temp_dir (Storage.set_records _ (Storage.set_records [] self)))
    with (Storage.temp_dir self).
  change (Storage.data_file (Storage.set_records _ (Storage.set_records [] self)))
    with (Storage.data_file self).
  rewrite if_exists_rmtree_files, if_exists_delete_files.
  pose proof (save_data_spec (Storage.set_records [] self)
    (for_ (Storage.records self) Storage.delete_image_of w).2) as [_ H2].
  cbn zeta in H2. rewrite H2, for_delete_files. clear H2.
  replace (Storage.truncate (Storage.max_records (Storage.set_records [] self))
             (Storage.records (Storage.set_records [] self))) with (@nil record).
  2: { cbn. unfold Storage.truncate. destruct (int_of _); [by rewrite take_nil|done]. }
  replace (Storage.overflow (Storage.max_records (Storage.set_records [] self))
             (Storage.records (Storage.set_records [] self))) with (@nil record).
  2: { cbn. unfold Storage.overflow. destruct (int_of _); [by rewrite drop_nil|done]. }
  done.
Qed.

Lemma is_file_filter (P : string * node → Prop) `{!∀ kv, Decision (P kv)}
    (fs : gmap string node) p :
  is_file fs p = false → is_file (filter P fs) p = false.
Proof.
  unfold is_file. rewrite map_lookup_filter.
  destruct (fs !! p) as [[doc|]|]; cbn; try done.
  case_guard; done.
Qed.

(** C5. After [clear_all] the list is empty, no image record of the list
    has its file left, the directory [temp_images] next to the data file
    is gone with everything below it, and there is no data file. *)
Theorem clear_all_leaves_nothing self w :
  let out := Storage.clear_all self w in
  let temp_images :=
    os_path_join (os_path_dirname (Storage.data_file self)) "temp_images" in
  Storage.records out.1 = [] ∧
  (∀ r, r ∈ Storage.records self → type r = "image" →
        is_file (files out.2) (content r) = false) ∧
  is_dir (files out.2) temp_images = false ∧
  (∀ p, is_dir (files w) temp_images = true →
        below temp_images p = true → files out.2 !! p = None) ∧
  is_file (files out.2) (Storage.data_file self) = false.
Proof.
  cbn zeta. rewrite clear_all_self, clear_all_files. cbn zeta.
  change (os_path_join (os_path_dirname (Storage.data_file self)) "temp_images")
    with (Storage.temp_dir self).
  set (df := Storage.data_file self). set (td := Storage.temp_dir self).
  set (fs1 := unlink_images (Storage.records self) (files w)).
  set (fs2 := write_file df (Records []) fs1).
  set (fs3 := if is_file fs2 df then delete df fs2 else fs2).
  assert (Hdf : is_file fs3 df = false).
  { subst fs3. destruct (is_file fs2 df) eqn:E; [|done].
    unfold is_file. by rewrite lookup_delete_eq. }
  assert (Himg : ∀ r, r ∈ Storage.records self → type r = "image" →
                      is_file fs3 (content r) = false).
  { intros r Hr Ht. destruct (decide (content r = df)) as [->|Hne]; [done|].
    pose proof (unlink_images_gone (Storage.records self) (files w) r Hr Ht) as H1.
    fold fs1 in H1.
    assert (H2 : is_file fs2 (content r) = false).
    { subst fs2. unfold write_file. destruct (is_dir fs1 df); [done|].
      unfold is_file in *. by rewrite lookup_insert_ne. }
    subst fs3. destruct (is_file fs2 df); [|done].
    unfold is_file in *. by rewrite lookup_delete_ne. }
  assert (Hdir : is_dir fs3 td = is_dir (files w) td).
  { assert (H1 : is_dir fs1 td = is_dir (files w) td) by apply unlink_images_is_dir.
    assert (H2 : is_dir fs2 td = is_dir fs1 td).
    { subst fs2. unfold write_file. destruct (is_dir fs1 df) eqn:E; [done|].
      unfold is_dir in *. destruct (decide (df = td)) as [->|Hne].
      - rewrite lookup_insert_eq. destruct (fs1 !! td) as [[|]|]; done.
      - by rewrite lookup_insert_ne. }
    rewrite <- H1, <- H2. subst fs3. destruct (is_file fs2 df) eqn:E; [|done].
    unfold is_dir, is_file in *. destruct (decide (df = td)) as [->|Hne].
    - rewrite lookup_delete_eq. destruct (fs2 !! td) as [[|]|]; done.
    - by rewrite lookup_delete_ne. }
  split_and!; [done|..].
  - intros r Hr Ht. destruct (is_dir fs3 td); auto using is_file_filter.
  - destruct (is_dir fs3 td) eqn:E; [|done].
    unfold is_dir. rewrite map_lookup_filter.
    destruct (fs3 !! td) as [x|]; cbn; [|done].
    rewrite option_guard_False; [done|].
    cbn. unfold below. rewrite bool_decide_true by done. done.
  - intros p Hd Hp. rewrite <- Hdir in Hd. rewrite Hd.
    rewrite map_lookup_filter. destruct (fs3 !! p) as [x|]; cbn; [|done].
    rewrite option_guard_False; [done|]. cbn. by rewrite Hp.
  - destruct (is_dir fs3 td); auto using is_file_filter.
Qed.

(** Clearing the sample store on the sample disk: [/app/temp_images] and
    the two files in it are gone, and so is the data file. *)
Lemma clear_all_leaves_nothing_witness :
  let out := Storage.clear_all sample_store sample_world in
  Storage.records out.1 = [] ∧
  is_file (files out.2) "/app/temp_images/temp_image_0a1b2c3d.png" = false ∧
  is_dir (files out.2) "/app/temp_images" = false ∧
  files out.2 !! "/app/temp_images/temp_image_ffffffff.png" = None ∧
  is_file (files out.2) "/app/clipboard_data.json" = false.
Proof.
  pose proof (clear_all_leaves_nothing sample_store sample_world) as H.
  cbn zeta in H.
  assert (Hp : os_path_join (os_path_dirname (Storage.data_file sample_store)) "temp_images"
               = "/app/temp_images") by (vm_compute; reflexivity).
  rewrite Hp in H.
  assert (Hd : Storage.data_file sample_store = "/app/clipboard_data.json")
    by (vm_compute; reflexivity).
  rewrite Hd in H.
  destruct H as (H1 & H2 & H3 & H4 & H5).
  cbn zeta. split_and!.
  - exact H1.
  - apply (H2 sample_image); [|reflexivity]. vm_compute. repeat constructor.
  - exact H3.
  - apply H4; vm_compute; reflexivity.
  - exact H5.
Defined.

(** ** Retention on load *)

Lemma remove_orphans_no_orphan d survivors fs p n doc :
  is_dir fs d = true →
  child_name d p = Some n →
  remove_orphans d survivors fs !! p = Some (File doc) →
  p ∈ image_paths survivors.
Proof.
  unfold remove_orphans. intros -> Hc. rewrite map_lookup_filter.
  destruct (fs !! p) as [x|]; cbn; [|done].
  case_guard as Hg; cbn; [|done]. intros [= ->].
  destruct (decide (p ∈ image_paths survivors)) as [|Hn]; [done|].
  exfalso. apply Hg. cbn. unfold orphan. rewrite Hc. eauto.
Qed.

(** C2. Loading a data file that holds a list of records sorts the list by
    id, descending; then drops the records older than the configured age
    (and the files of the image records among them); then keeps the first
    [max_records] records of what is left; then deletes every file of the
    temp-images directory, next to the data file, that is not the content
    of an image record of the final list. *)
Theorem load_applies_retention_in_order now self w loaded :
  files w !! Storage.data_file self = Some (File (Records loaded)) →
  let out := Storage._load_data now self w in
  let sorted := Storage.sort_by_id_desc loaded in
  let limit := max_age_seconds self in
  let aged := filter (fresh now limit) sorted in
  let expired := filter (λ r, ¬ fresh now limit r) sorted in
  let kept :=
    match Storage.max_records self with
    | VInt n => take n aged
    | VBool b => take (if b then 1 else 0)%nat aged
    | VNone => aged
    end in
  let temp_images :=
    os_path_join (os_path_dirname (Storage.data_file self)) "temp_images" in
  let swept := unlink_images expired (files w) in
  (sorted ≡ₚ loaded ∧ descending sorted) ∧
  Storage.records out.1 = kept ∧
  files out.2 = remove_orphans temp_images kept swept ∧
  (∀ p n doc,
     is_dir (files w) temp_images = true →
     child_name temp_images p = Some n →
     files out.2 !! p = Some (File doc) →
     p ∈ image_paths (Storage.records out.1)).
Proof.
  intros Hfile. cbn zeta.
  pose proof (load_data_spec now self w) as H. rewrite Hfile in H. cbn zeta in H.
  destruct H as [Hs Hf].
  change (os_path_join (os_path_dirname (Storage.data_file self)) "temp_images")
    with (Storage.temp_dir self).
  assert (Hcut : ∀ aged,
    match Storage.max_records self with
    | VInt n => take n aged
    | VBool b => take (if b then 1 else 0)%nat aged
    | VNone => aged
    end = Storage.truncate (Storage.max_records self) aged).
  { intros aged. unfold Storage.truncate. by destruct (Storage.max_records self). }
  rewrite Hcut.
  split_and!.
  - apply sort_by_id_desc_perm.
  - apply sort_by_id_desc_descending.
  - by rewrite Hs.
  - done.
  - intros p n doc Hd Hc Hp. rewrite Hf in Hp. rewrite Hs. cbn.
    eapply remove_orphans_no_orphan; [|exact Hc|exact Hp].
    by rewrite unlink_images_is_dir.
Qed.

(** Loading the crowded disk under the strict settings at 315: the three
    records are put in order, the image record is too old and its file
    goes, the older of the two texts is beyond the count, and the file
    that no record names is swept. *)
Lemma load_applies_retention_in_order_witness :
  let self := Storage.Build (Some strict_config) (VInt 1) "/app/clipboard_data.json" [] in
  let out := Storage._load_data 315 self crowded_world in
  Storage.records out.1 = [sample_note] ∧
  files out.2 =
    {[ "/app" := Dir;
       "/app/temp_images" := Dir;
       "/app/clipboard_data.json" :=
         File (Records [sample_image; sample_note; sample_text]) ]}.
Proof.
  pose proof (load_applies_retention_in_order 315
    (Storage.Build (Some strict_config) (VInt 1) "/app/clipboard_data.json" [])
    crowded_world [sample_image; sample_note; sample_text]) as H.
  cbn zeta in *. destruct H as (_ & Hr & Hf & _); [vm_compute; reflexivity|].
  split.
  - rewrite Hr. vm_compute. reflexivity.
  - rewrite Hf. vm_compute. reflexivity.
Defined.

(** ** Retention by count *)

(** C3. A store limited to one record holds an image record whose file is
    on disk; adding a text record evicts the image record, and its file is
    still there afterwards. *)
Theorem add_record_leaves_evicted_image_file :
  let start := Storage.__init__ sample_file (Some tight_config) VNone 30 tight_world in
  let out := Storage.add_record sample_text 30 start.1 start.2 in
  Storage.max_records start.1 = VInt 1 ∧
  Storage.records start.1 = [sample_image] ∧
  Storage.records out.1 = [sample_text] ∧
  is_file (files out.2) (content sample_image) = true ∧
  calls out.2 = calls start.2 ++ [OpenWrite "/app/clipboard_data.json"].
Proof. vm_compute. repeat split. Qed.

(** ** Identity of records *)

Lemma filter_all (P : record → Prop) `{!∀ x, Decision (P x)} rs :
  Forall P rs → filter P rs = rs.
Proof.
  induction 1 as [|x l Hx _ IH]; [done|]. by rewrite filter_cons_True, IH.
Qed.

Lemma filter_none (P : record → Prop) `{!∀ x, Decision (P x)} rs :
  Forall P rs → filter (λ x, ¬ P x) rs = [].
Proof.
  induction 1 as [|x l Hx _ IH]; [done|]. rewrite filter_cons_False; [done|]. tauto.
Qed.

Lemma sublist_fmap {A B} (f : A → B) (l1 l2 : list A) :
  l1 `sublist_of` l2 → f <$> l1 `sublist_of` f <$> l2.
Proof. induction 1; cbn; by constructor. Qed.

(** C7, as stated, fails: after a text and an image that carry the same id
    were added, the list holds both, so ids are not unique in every
    reachable state. *)
Lemma equal_ids_do_not_merge :
  ¬ (∀ self, reachable any_record self → NoDup (id <$> Storage.records self)).
Proof.
  intros H.
  specialize (H twin_state.1).
  assert (Hr : reachable any_record twin_state.1).
  { unfold twin_state. cbn zeta. apply reach_add_record; [|done].
    apply reach_add_record; [|done]. apply reach_init. }
  specialize (H Hr). vm_compute in H.
  apply NoDup_cons in H as [Hin _]. apply Hin. constructor.
Qed.

(** In a list without two entries of the same content and type, an entry
    is known by its content and type. *)
Lemma key_inj_NoDup (rs : list record) e e' :
  NoDup (key <$> rs) → e ∈ rs → e' ∈ rs → key e = key e' → e = e'.
Proof.
  induction rs as [|x rs IH]; cbn; intros Hnd He He' Hk.
  - by apply elem_of_nil in He.
  - apply NoDup_cons in Hnd as [Hx Hnd].
    apply elem_of_cons in He as [->|He]; apply elem_of_cons in He' as [->|He'].
    + done.
    + exfalso. apply Hx. rewrite Hk. by apply list_elem_of_fmap_2.
    + exfalso. apply Hx. rewrite <- Hk. by apply list_elem_of_fmap_2.
    + by apply IH.
Qed.

Lemma filter_other_keys r pre e post :
  key e = key r →
  NoDup (key <$> pre ++ e :: post) →
  filter (λ x, key x ≠ key r) (pre ++ e :: post) = pre ++ post.
Proof.
  intros Hk Hnd. rewrite fmap_app in Hnd. cbn in Hnd.
  apply NoDup_app in Hnd as (_ & Hpre & Hpost).
  apply NoDup_cons in Hpost as [Hpost _].
  rewrite filter_app, filter_cons_False by (intros H; by apply H).
  f_equal; apply filter_all, Forall_forall; intros x Hx Heq.
  - apply (Hpre (key x)); [by apply list_elem_of_fmap_2|].
    rewrite Heq, <- Hk. constructor.
  - apply Hpost. rewrite Hk, <- Heq. by apply list_elem_of_fmap_2.
Qed.

(** C7 (amended). Records are merged by content and type, not by id.  In a
    store whose entries differ pairwise in content or type, adding a record
    with the content and type of an entry overwrites that entry's id and
    timestamp and moves it to the front, and the entries still differ
    pairwise afterwards.  A record that shares only its id with an entry is
    added as a new entry, and both are kept when nothing is too old and the
    count limit leaves room. *)
Theorem add_record_merges_by_content_and_type self r now w :
  reachable any_record self →
  NoDup (key <$> Storage.records self) →
  let out := (Storage.add_record r now self w).1 in
  NoDup (key <$> Storage.records out) ∧
  (∀ e, e ∈ Storage.records self → content e = content r → type e = type r →
     Storage.records out =
       Build_record (id r) (content e) (type e) (timestamp r) (favorited e)
         :: filter (λ x, key x ≠ key r) (Storage.records self)) ∧
  (∀ e, e ∈ Storage.records self → id e = id r →
     (∀ x, x ∈ Storage.records self → key x ≠ key r) →
     (∀ x, x ∈ r :: Storage.records self → fresh now (max_age_seconds self) x) →
     (∀ n, int_of (Storage.max_records self) = Some n →
           (length (Storage.records self) < n)%nat) →
     Storage.records out = r :: Storage.records self ∧
     e ∈ Storage.records out ∧ r ∈ Storage.records out ∧ e ≠ r).
Proof.
  intros Hreach Hnd. cbn zeta.
  pose proof (reachable_within_limit _ _ Hreach) as Hlim.
  split_and!.
  - destruct (add_record_records r now self w)
      as [(pre & e & post & Hrs & Hk & Hpre & ->)|[Hnone ->]].
    + eapply sublist_NoDup; [|apply sublist_fmap, truncate_sublist].
      rewrite Hrs in Hnd. cbn. rewrite fmap_app in *. cbn in Hnd.
      rewrite <- Permutation_middle in Hnd.
      replace (key (Storage.bump e r)) with (key e) by done. done.
    + eapply sublist_NoDup; [|apply sublist_fmap, truncate_sublist].
      eapply sublist_NoDup; [|apply sublist_fmap, sublist_filter].
      cbn. apply NoDup_cons. split; [|done].
      intros Hin. apply list_elem_of_fmap in Hin as (x & Hx & Hin).
      rewrite Forall_forall in Hnone. by apply (Hnone x Hin).
  - intros e He Hc Ht.
    assert (Hke : key e = key r) by (unfold key; by rewrite Hc, Ht).
    destruct (add_record_records r now self w)
      as [(pre & e' & post & Hrs & Hk & Hpre & ->)|[Hnone _]].
    2: { rewrite Forall_forall in Hnone. by destruct (Hnone e He). }
    assert (e' = e) as ->.
    { apply (key_inj_NoDup (Storage.records self)); [done| |done|congruence].
      rewrite Hrs. apply elem_of_app. right. constructor. }
    rewrite Hrs in Hnd |- *. rewrite filter_other_keys by done.
    unfold Storage.truncate. destruct (int_of (Storage.max_records self)) as [n|] eqn:En;
      [|done].
    rewrite take_ge; [done|]. specialize (Hlim n En). rewrite Hrs in Hlim.
    cbn [length]. rewrite length_app in Hlim |- *. cbn [length] in Hlim. lia.
  - intros e He Hid Hnew Hfresh Hroom.
    destruct (add_record_records r now self w)
      as [(pre & e' & post & Hrs & Hk & _ & _)|[_ Hout]].
    { destruct (Hnew e'); [|done]. rewrite Hrs. apply elem_of_app. right. constructor. }
    assert (Hrec : Storage.records (Storage.add_record r now self w).1
                   = r :: Storage.records self).
    { rewrite Hout, filter_all by (by apply Forall_forall).
      unfold Storage.truncate.
      destruct (int_of (Storage.max_records self)) as [n|] eqn:En; [|done].
      rewrite take_ge; [done|]. specialize (Hroom n eq_refl). cbn. lia. }
    rewrite Hrec. split_and!; [done|by constructor|constructor|].
    intros ->. by apply (Hnew r He).
Qed.

(** The text of the sample store copied once more: its entry takes the new
    id and goes first; the twin image, which shares only its id with the
    twin text, is added next to it. *)
Lemma add_record_merges_by_content_and_type_witness :
  Storage.records (Storage.add_record sample_text_again 40 sample_store sample_world).1
    = [sample_text_again; sample_image] ∧
  Storage.records twin_state.1 = [twin_image; twin_text].
Proof.
  split.
  - pose proof (add_record_merges_by_content_and_type sample_store sample_text_again 40
                  sample_world) as H.
    cbn zeta in H. destruct H as (_ & H & _).
    + apply reach_init.
    + vm_compute. repeat (constructor; [set_solver|]). constructor.
    + rewrite (H sample_text); [|vm_compute; repeat constructor|reflexivity..].
      clear. vm_compute. reflexivity.
  - pose proof (add_record_merges_by_content_and_type
                  (Storage.add_record twin_text 5
                     (Storage.__init__ sample_file None (VInt 50) 5 blank_world).1
                     (Storage.__init__ sample_file None (VInt 50) 5 blank_world).2).1
                  twin_image 5
                  (World (<["/app/temp_images/temp_image_0a1b2c3d.png" := File Garbage]>
                            (files (Storage.add_record twin_text 5
                               (Storage.__init__ sample_file None (VInt 50) 5 blank_world).1
                               (Storage.__init__ sample_file None (VInt 50) 5 blank_world).2).2))
                         (calls (Storage.add_record twin_text 5
                               (Storage.__init__ sample_file None (VInt 50) 5 blank_world).1
                               (Storage.__init__ sample_file None (VInt 50) 5 blank_world).2).2)))
      as H.
    cbn zeta in H. destruct H as (_ & _ & H).
    + apply reach_add_record; [apply reach_init|done].
    + vm_compute. repeat (constructor; [set_solver|]). constructor.
    + destruct (H twin_text) as (Hrec & _).
      * vm_compute. repeat constructor.
      * reflexivity.
      * intros x Hx. vm_compute in Hx. apply list_elem_of_singleton in Hx as ->.
        vm_compute. discriminate.
      * intros x _. vm_compute. done.
      * intros n Hn. vm_compute in Hn. injection Hn as <-. vm_compute. lia.
      * unfold twin_state. cbn zeta. rewrite Hrec. clear. vm_compute. reflexivity.
Defined.

(** ** Deleting one record *)

(** C9, as stated, fails: when an image record earlier in the list carries
    the id of the text record, [delete_record] on that id also asks for the
    image file and unlinks it. *)
Lemma delete_text_record_may_touch_image :
  ¬ (∀ self w r,
       reachable any_record self → r ∈ Storage.records self → type r ≠ "image" →
       calls (Storage.delete_record (id r) self w).2 =
         calls w ++ [OpenWrite (Storage.data_file self)]).
Proof.
  intros H.
  specialize (H twin_state.1 (World (files twin_state.2) []) twin_text).
  assert (Hr : reachable any_record twin_state.1).
  { unfold twin_state. cbn zeta. apply reach_add_record; [|done].
    apply reach_add_record; [|done]. apply reach_init. }
  specialize (H Hr). vm_compute in H.
  assert (Hcalls : [Exists "/app/temp_images/temp_image_0a1b2c3d.png";
                    Unlink "/app/temp_images/temp_image_0a1b2c3d.png";
                    OpenWrite "/app/clipboard_data.json"]
                   = [OpenWrite "/app/clipboard_data.json"]).
  { apply H; [|discriminate]. repeat constructor. }
  discriminate Hcalls.
Qed.

Lemma find_by_id_elem record_id rs e :
  Storage.find_by_id record_id rs = Some e → e ∈ rs ∧ id e = record_id.
Proof.
  unfold Storage.find_by_id. intros H.
  assert (He : e ∈ filter (λ r, id r = record_id) rs).
  { destruct (filter _ rs) as [|x l]; [done|]. cbn in H. inversion H. constructor. }
  apply list_elem_of_filter in He. tauto.
Qed.

(** C9 (amended). In every state the store can reach, for a record that is
    not an image and shares its id with no image record, [delete_record] on
    its id removes the records with that id and writes the data file; it
    makes no other call into the file system, and the rest of the disk is
    as before. *)
Theorem delete_record_of_text_only_writes_data_file self w r :
  reachable any_record self →
  r ∈ Storage.records self → type r ≠ "image" →
  (∀ e, e ∈ Storage.records self → id e = id r → type e ≠ "image") →
  let kept := filter (λ x, id x ≠ id r) (Storage.records self) in
  Storage.delete_record (id r) self w =
    (Storage.set_records kept self,
     World (write_file (Storage.data_file self) (Records kept) (files w))
           (calls w ++ [OpenWrite (Storage.data_file self)]))
  ∧ r ∉ kept.
Proof.
  intros Hreach Hr Ht Hfirst kept. split.
  - unfold Storage.delete_record.
    assert (Hnoop : match Storage.find_by_id (id r) (Storage.records self) with
                    | Some r0 => Storage.delete_image_of r0
                    | None => mret ()
                    end w = (tt, w)).
    { destruct (Storage.find_by_id _ _) as [e|] eqn:E; [|done].
      apply find_by_id_elem in E as [He Hid].
      unfold Storage.delete_image_of. by rewrite bool_decide_false by auto. }
    rewrite eff_bind_run, Hnoop. cbn [fst snd].
    rewrite (save_data_within (Storage.set_records kept self)); [done|].
    apply reachable_within_limit in Hreach. unfold within_limit in *. subst kept. cbn.
    intros n Hn. specialize (Hreach n Hn).
    pose proof (length_filter (λ x, id x ≠ id r) (Storage.records self)). lia.
  - subst kept. rewrite list_elem_of_filter. tauto.
Qed.

(** Deleting ["hello"] from the sample store. *)
Lemma delete_record_of_text_only_writes_data_file_witness :
  let kept := filter (λ x, id x ≠ id sample_text) (Storage.records sample_store) in
  Storage.delete_record (id sample_text) sample_store sample_world =
    (Storage.set_records kept sample_store,
     World (write_file (Storage.data_file sample_store) (Records kept) (files sample_world))
           (calls sample_world ++ [OpenWrite (Storage.data_file sample_store)]))
  ∧ sample_text ∉ kept.
Proof.
  apply (delete_record_of_text_only_writes_data_file sample_store sample_world sample_text).
  - apply reach_init.
  - vm_compute. repeat constructor.
  - discriminate.
  - intros e He. vm_compute in He.
    apply elem_of_cons in He as [->|He]; [discriminate|].
    apply elem_of_cons in He as [->|He]; [vm_compute; discriminate|].
    by apply elem_of_nil in He.
Defined.

(** ** The poll loop *)

(** C6, as stated, fails: a bitmap that [Image.open] rejects is seen as a
    change, and last-seen is not set to its digest. *)
Lemma undecodable_image_is_not_remembered :
  ¬ (∀ d c self storage w,
       ClipboardMonitor.LStr (ClipboardMonitor.hexdigest d)
         ≠ ClipboardMonitor.last_content self →
       ClipboardMonitor.last_content
         (ClipboardMonitor._check_clipboard true (ClipboardMonitor.Bitmap (Some d))
            c self storage w).1.1
       = ClipboardMonitor.LStr (ClipboardMonitor.hexdigest d)).
Proof.
  intros H.
  specialize (H broken_bitmap sample_clock sample_monitor sample_store sample_world).
  vm_compute in H. discriminate H. discriminate.
Qed.

(** C6 (amended). The last-seen value is overwritten only after the new
    value has been handed to the store, and then whatever the store does
    with it.  A changed text, a changed file drop, and a changed bitmap
    that decodes and is saved to its temp file are handed to [add_record]
    first, and last-seen is that value afterwards.  A bitmap that fails to
    decode, or that cannot be saved, leaves last-seen and the store as they
    were, so the same capture is tried again at the next poll.  No poll
    changes last-seen without a call of [add_record]. *)
Theorem last_seen_is_set_after_handling c self storage w :
  let record_of content_type content :=
    Build_record (ClipboardMonitor.now_timestamp c) content content_type
      (ClipboardMonitor.now_strftime c) false in
  let handed r seen w' :=
    let stored := Storage.add_record r (ClipboardMonitor.time_time c) storage w' in
    ((ClipboardMonitor.Build seen (ClipboardMonitor.temp_dir self), stored.1), stored.2) in
  let poll cb := ClipboardMonitor._check_clipboard true cb c self storage w in
  (∀ content,
     ClipboardMonitor.LStr content ≠ ClipboardMonitor.last_content self →
     poll (ClipboardMonitor.UnicodeText (Some content))
       = handed (record_of "text" content) (ClipboardMonitor.LStr content) w ∧
     poll (ClipboardMonitor.AnsiText (Some content))
       = handed (record_of "text" content) (ClipboardMonitor.LStr content) w) ∧
  (∀ paths,
     ClipboardMonitor.LFiles paths ≠ ClipboardMonitor.last_content self →
     poll (ClipboardMonitor.FileDrop (Some paths))
       = handed (record_of "file" (ClipboardMonitor.join_lines paths))
           (ClipboardMonitor.LFiles paths) w) ∧
  (∀ d,
     let image_hash := ClipboardMonitor.hexdigest d in
     let temp_path :=
       os_path_join (ClipboardMonitor.temp_dir self)
         ("temp_image_" +:+ String.substring 0 8 image_hash +:+ ".png") in
     let dir := os_path_dirname temp_path in
     let made :=
       match files w !! dir with
       | None => <[dir := Dir]> (files w)
       | Some _ => files w
       end in
     (ClipboardMonitor.LStr image_hash ≠ ClipboardMonitor.last_content self →
      ClipboardMonitor.decodes d = true →
      is_file (files w) dir = false →
      is_dir made temp_path = false →
      poll (ClipboardMonitor.Bitmap (Some d))
        = handed (record_of "image" temp_path) (ClipboardMonitor.LStr image_hash)
            (World (<[temp_path := File Garbage]> made)
               (calls w ++ [MakeDirs dir; OpenWrite temp_path; Exists temp_path]))) ∧
     (ClipboardMonitor.decodes d = false →
      poll (ClipboardMonitor.Bitmap (Some d)) = ((self, storage), w)) ∧
     (is_file (files w) dir = true ∨ is_dir made temp_path = true →
      (poll (ClipboardMonitor.Bitmap (Some d))).1 = (self, storage))) ∧
  (∀ available cb,
     let out := ClipboardMonitor._check_clipboard available cb c self storage w in
     out.1 = (self, storage) ∨
     ∃ r seen w',
       seen ≠ ClipboardMonitor.last_content self ∧
       id r = ClipboardMonitor.now_timestamp c ∧
       out = handed r seen w').
Proof.
  cbn zeta.
  assert (Htext : ∀ content,
    ClipboardMonitor.LStr content ≠ ClipboardMonitor.last_content self →
    (storage' ← ClipboardMonitor._handle_new_content "text" content c storage;
     mret (ClipboardMonitor.Build (ClipboardMonitor.LStr content)
             (ClipboardMonitor.temp_dir self), storage')) w
    = ((ClipboardMonitor.Build (ClipboardMonitor.LStr content)
          (ClipboardMonitor.temp_dir self),
        (Storage.add_record
           (Build_record (ClipboardMonitor.now_timestamp c) content "text"
              (ClipboardMonitor.now_strftime c) false)
           (ClipboardMonitor.time_time c) storage w).1),
       (Storage.add_record
           (Build_record (ClipboardMonitor.now_timestamp c) content "text"
              (ClipboardMonitor.now_strftime c) false)
           (ClipboardMonitor.time_time c) storage w).2)).
  { intros content _. by rewrite eff_bind_run, eff_ret_run. }
  assert (Hbitmap : ∀ d,
    let image_hash := ClipboardMonitor.hexdigest d in
    let temp_path :=
      os_path_join (ClipboardMonitor.temp_dir self)
        ("temp_image_" +:+ String.substring 0 8 image_hash +:+ ".png") in
    let dir := os_path_dirname temp_path in
    let made :=
      match files w !! dir with
      | None => <[dir := Dir]> (files w)
      | Some _ => files w
      end in
    ClipboardMonitor.LStr image_hash ≠ ClipboardMonitor.last_content self →
    ClipboardMonitor.decodes d = true →
    let out := ClipboardMonitor._check_clipboard true (ClipboardMonitor.Bitmap (Some d))
                 c self storage w in
    (is_file (files w) dir = false → is_dir made temp_path = false →
     out =
       let w' := World (<[temp_path := File Garbage]> made)
                   (calls w ++ [MakeDirs dir; OpenWrite temp_path; Exists temp_path]) in
       let stored :=
         Storage.add_record
           (Build_record (ClipboardMonitor.now_timestamp c) temp_path "image"
              (ClipboardMonitor.now_strftime c) false)
           (ClipboardMonitor.time_time c) storage w' in
       ((ClipboardMonitor.Build (ClipboardMonitor.LStr image_hash)
           (ClipboardMonitor.temp_dir self), stored.1), stored.2)) ∧
    (is_file (files w) dir = true ∨ is_dir made temp_path = true →
     out.1 = (self, storage))).
  { intros d. cbn zeta. intros Hne Hdec.
    unfold ClipboardMonitor._check_clipboard. cbn [negb].
    rewrite bool_decide_true by done. rewrite Hdec.
    rewrite eff_bind_run. unfold os_makedirs, is_file, is_dir.
    set (temp_path := os_path_join _ _).
    set (dir := os_path_dirname temp_path).
    destruct (files w !! dir) as [[doc|]|] eqn:Edir; cbn [fst snd].
    - split; [done|]. intros _. by rewrite eff_ret_run.
    - rewrite eff_bind_run. unfold image_save, json_dump. unfold is_dir.
      cbn [files log calls].
      destruct (files w !! temp_path) as [[doc|]|] eqn:Ep; cbn [fst snd].
      + split; [|intros [|]; done]. intros _ _.
        rewrite !eff_bind_run, eff_ret_run.
        unfold os_path_exists, ClipboardMonitor._handle_new_content, log.
        cbn [fst snd files calls]. rewrite <- !(assoc_L (++)). done.
      + split; [done|]. intros _. by rewrite eff_ret_run.
      + split; [|intros [|]; done]. intros _ _.
        rewrite !eff_bind_run, eff_ret_run.
        unfold os_path_exists, ClipboardMonitor._handle_new_content, log.
        cbn [fst snd files calls]. rewrite <- !(assoc_L (++)). done.
    - rewrite eff_bind_run. unfold image_save, json_dump. unfold is_dir.
      cbn [files log calls].
      destruct (<[dir:=Dir]> (files w) !! temp_path) as [[doc|]|] eqn:Ep; cbn [fst snd].
      + split; [|intros [|]; done]. intros _ _.
        rewrite !eff_bind_run, eff_ret_run.
        unfold os_path_exists, ClipboardMonitor._handle_new_content, log.
        cbn [fst snd files calls]. rewrite <- !(assoc_L (++)). done.
      + split; [done|]. intros _. by rewrite eff_ret_run.
      + split; [|intros [|]; done]. intros _ _.
        rewrite !eff_bind_run, eff_ret_run.
        unfold os_path_exists, ClipboardMonitor._handle_new_content, log.
        cbn [fst snd files calls]. rewrite <- !(assoc_L (++)). done. }
  split_and!.
  - intros content Hne. unfold ClipboardMonitor._check_clipboard. cbn [negb].
    rewrite bool_decide_true by done. split; by apply Htext.
  - intros paths Hne. unfold ClipboardMonitor._check_clipboard. cbn [negb].
    rewrite bool_decide_true by done. by rewrite eff_bind_run, eff_ret_run.
  - intros d. split_and!.
    + intros Hne Hdec Hf Hd. by apply (Hbitmap d).
    + intros Hdec. unfold ClipboardMonitor._check_clipboard. cbn [negb].
      rewrite Hdec. by case_bool_decide.
    + intros Hbad.
      destruct (decide (ClipboardMonitor.LStr (ClipboardMonitor.hexdigest d)
                        = ClipboardMonitor.last_content self)) as [Heq|Hne].
      { unfold ClipboardMonitor._check_clipboard. cbn [negb].
        rewrite bool_decide_false by (by intros ?). done. }
      destruct (ClipboardMonitor.decodes d) eqn:Hdec.
      * by apply (Hbitmap d).
      * unfold ClipboardMonitor._check_clipboard. cbn [negb].
        rewrite bool_decide_true by done. by rewrite Hdec.
  - intros [|] cb; [|by left].
    destruct cb as [|[content|]|[content|]|[paths|]|[d|]|]; try (by left).
    + destruct (decide (ClipboardMonitor.LStr content = ClipboardMonitor.last_content self))
        as [Heq|Hne].
      * left. unfold ClipboardMonitor._check_clipboard. cbn [negb].
        rewrite bool_decide_false by (by intros ?). done.
      * right. eexists _, _, w. split; [exact Hne|]. split; [|
          unfold ClipboardMonitor._check_clipboard; cbn [negb];
          rewrite bool_decide_true by done; by apply Htext]. done.
    + destruct (decide (ClipboardMonitor.LStr content = ClipboardMonitor.last_content self))
        as [Heq|Hne].
      * left. unfold ClipboardMonitor._check_clipboard. cbn [negb].
        rewrite bool_decide_false by (by intros ?). done.
      * right. eexists _, _, w. split; [exact Hne|]. split; [|
          unfold ClipboardMonitor._check_clipboard; cbn [negb];
          rewrite bool_decide_true by done; by apply Htext]. done.
    + destruct (decide (ClipboardMonitor.LFiles paths = ClipboardMonitor.last_content self))
        as [Heq|Hne].
      * left. unfold ClipboardMonitor._check_clipboard. cbn [negb].
        rewrite bool_decide_false by (by intros ?). done.
      * right. eexists _, _, w. split; [exact Hne|]. split; [|
          unfold ClipboardMonitor._check_clipboard; cbn [negb];
          rewrite bool_decide_true by done; by rewrite eff_bind_run, eff_ret_run]. done.
    + destruct (decide (ClipboardMonitor.LStr (ClipboardMonitor.hexdigest d)
                        = ClipboardMonitor.last_content self)) as [Heq|Hne].
      * left. unfold ClipboardMonitor._check_clipboard. cbn [negb].
        rewrite bool_decide_false by (by intros ?). done.
      * destruct (ClipboardMonitor.decodes d) eqn:Hdec.
        2: { left. unfold ClipboardMonitor._check_clipboard. cbn [negb].
             rewrite bool_decide_true by done. by rewrite Hdec. }
        pose proof (Hbitmap d Hne Hdec) as [Hgood Hbad]. cbn zeta in Hgood, Hbad.
        match type of Hbad with ?a = true ∨ ?b = true → _ =>
          destruct a eqn:Ea; [left; apply Hbad; by left|];
          destruct b eqn:Eb; [left; apply Hbad; by right|] end.
        right. eexists _, _, _. split; [exact Hne|]. split; [|by apply Hgood]. done.
Qed.

(** A poll that meets a bitmap on the sample disk: the image is saved under
    the first eight digits of its digest, the record that names the file
    goes first in the store, and last-seen is the digest. *)
Lemma last_seen_is_set_after_handling_witness :
  let out :=
    ClipboardMonitor._check_clipboard true (ClipboardMonitor.Bitmap (Some sample_bitmap))
      sample_clock sample_monitor sample_store sample_world in
  ClipboardMonitor.last_content out.1.1
    = ClipboardMonitor.LStr "e4d909c290d0fb1ca068ffaddf22cbd0" ∧
  Storage.records out.1.2 =
    [Build_record 40 "/app/temp_images/temp_image_e4d909c2.png" "image"
       "2024-05-01 10:00:40" false;
     sample_text; sample_image] ∧
  is_file (files out.2) "/app/temp_images/temp_image_e4d909c2.png" = true.
Proof.
  pose proof (last_seen_is_set_after_handling sample_clock sample_monitor sample_store
                sample_world) as H.
  cbn zeta in H. destruct H as (_ & _ & H & _).
  destruct (H sample_bitmap) as (H1 & _).
  cbn zeta. rewrite H1;
    [|vm_compute; discriminate|reflexivity|vm_compute; reflexivity..].
  clear. vm_compute. repeat split.
Defined.

(** ** Defaults *)




(** [main()] itself hands its window no [Config]: on the same disk the
    window it builds has none, the guard of [quit_application] is false,
    and list and data file are still there after quitting. *)
Lemma main_window_holds_no_config :
  match Main.main sample_file "/app/src/clipboard_monitor.py" 30 unconfigured_world with
  | (Some (window, monitor), w) =>
      let out := MainWindow.quit_application window w in
      MainWindow.config window = None ∧
      is_dir (files w) "/app/temp_images" = true ∧
      Storage.records (MainWindow.storage out.1) = [sample_text] ∧
      is_file (files out.2) "/app/clipboard_data.json" = true
  | (None, _) => False
  end.
Proof. vm_compute. repeat split. Qed.

(** * Further properties of the store *)

(** ** The count limit *)

(** X1. In every state the store can reach, a store with a count limit
    holds at most that many records. *)
Theorem store_never_exceeds_max_records self n :
  reachable any_record self →
  int_of (Storage.max_records self) = Some n →
  (length (Storage.records self) ≤ n)%nat.
Proof. intros Hreach. apply reachable_within_limit in Hreach. apply Hreach. Qed.

(** The sample store is limited to fifty records. *)
Lemma store_never_exceeds_max_records_witness :
  (length (Storage.records sample_store) ≤ 50)%nat.
Proof.
  apply (store_never_exceeds_max_records sample_store 50).
  - apply reach_init.
  - vm_compute. reflexivity.
Defined.

(** ** Saving and loading *)

Lemma sort_by_id_desc_fixed l :
  descending l → Storage.sort_by_id_desc l = l.
Proof.
  unfold descending, Storage.sort_by_id_desc.
  induction 1 as [|x l Hd IH Hx]; [done|].
  cbn [foldr]. rewrite IH. destruct l as [|y l']; [done|].
  apply insert_desc_stable. by inversion Hx.
Qed.

Lemma filter_within_limit (P : record → Prop) `{!∀ x, Decision (P x)} mr rs :
  (∀ n, int_of mr = Some n → (length rs ≤ n)%nat) →
  Storage.truncate mr (filter P rs) = filter P rs.
Proof.
  intros Hl. apply truncate_within. intros n Hn. specialize (Hl n Hn).
  pose proof (length_filter P rs). lia.
Qed.

(** X2. What a reachable store saves is what a store built on the same
    settings loads back from that disk, up to the records that have
    expired in between: the order is kept and nothing else is lost. *)
Theorem saved_list_is_loaded_back self w now :
  reachable newest self →
  is_dir (files w) (Storage.data_file self) = false →
  let saved := Storage._save_data self w in
  let loaded := Storage._load_data now (Storage.set_records [] saved.1) saved.2 in
  Storage.records loaded.1 =
    filter (fresh now (max_age_seconds self)) (Storage.records self).
Proof.
  intros Hreach Hdir. cbn zeta.
  pose proof (reachable_descending self Hreach) as Hdesc.
  pose proof (reachable_within_limit _ _ Hreach) as Hlim.
  rewrite save_data_within by done. cbn [fst snd].
  unfold write_file. rewrite Hdir.
  pose proof (load_data_spec now (Storage.set_records [] self)
    (World (<[Storage.data_file self := File (Records (Storage.records self))]> (files w))
           (calls w ++ [OpenWrite (Storage.data_file self)]))) as H.
  cbn zeta in H. cbn [files Storage.data_file Storage.set_records] in H.
  rewrite lookup_insert_eq in H.
  destruct H as [-> _]. cbn [Storage.records Storage.set_records Storage.max_records].
  rewrite sort_by_id_desc_fixed by done.
  change (max_age_seconds _) with (max_age_seconds self).
  apply filter_within_limit. apply Hlim.
Qed.

(** The sample store, saved and loaded at once. *)
Lemma saved_list_is_loaded_back_witness :
  let saved := Storage._save_data sample_store sample_world in
  let loaded := Storage._load_data 30 (Storage.set_records [] saved.1) saved.2 in
  Storage.records loaded.1 =
    filter (fresh 30 (max_age_seconds sample_store)) (Storage.records sample_store).
Proof.
  apply (saved_list_is_loaded_back sample_store sample_world 30).
  - apply reach_init.
  - vm_compute. reflexivity.
Defined.

(** X3. When the path of the data file holds anything but a list of
    records (a directory, a settings object, a list of pairs, unreadable
    bytes) or nothing at all, a new store starts with an empty history and leaves the disk as
    it is. *)
Theorem unreadable_data_file_gives_empty_history file__ cfg max_records now w :
  (∀ rs, files w !! os_path_join (os_path_dirname (os_path_dirname file__))
                      "clipboard_data.json" ≠ Some (File (Records rs))) →
  let out := Storage.__init__ file__ cfg max_records now w in
  Storage.records out.1 = [] ∧ files out.2 = files w.
Proof.
  intros Hbad. cbn zeta. unfold Storage.__init__. cbn zeta.
  match goal with |- context [Storage._load_data now ?s w] =>
    pose proof (load_data_spec now s w) as H; cbn zeta in H;
    cbn [Storage.data_file] in H end.
  destruct (files w !! _) as [[[rs| | |]|]|] eqn:E.
  - by destruct (Hbad rs).
  - destruct H as [-> ->]. done.
  - destruct H as [-> ->]. done.
  - destruct H as [-> ->]. done.
  - destruct H as [-> ->]. done.
  - destruct H as [-> ->]. done.
Qed.

(** A settings file where the history should be. *)
Lemma unreadable_data_file_gives_empty_history_witness :
  let w := World {[ "/app/clipboard_data.json" := File (Settings ∅) ]} [] in
  let out := Storage.__init__ sample_file None (VInt 50) 30 w in
  Storage.records out.1 = [] ∧ files out.2 = files w.
Proof.
  apply (unreadable_data_file_gives_empty_history sample_file None (VInt 50) 30
           (World {[ "/app/clipboard_data.json" := File (Settings ∅) ]} [])).
  intros rs. vm_compute. discriminate.
Defined.

(** ** Changing the settings of a store *)

(** The cut to the count limit that [_save_data] and [update_config] both
    make before they go on. *)
Lemma cut_to_limit_spec self w :
  let out :=
    (match int_of (Storage.max_records self) with
     | Some n =>
         if bool_decide (n < length (Storage.records self))%nat then
           for_ (drop n (Storage.records self)) Storage.delete_image_of ;;
           mret (Storage.set_records (take n (Storage.records self)) self)
         else mret self
     | None => mret self
     end) w in
  out.1 = Storage.set_records
            (Storage.truncate (Storage.max_records self) (Storage.records self)) self
  ∧ files out.2 =
      unlink_images (Storage.overflow (Storage.max_records self) (Storage.records self))
        (files w)
  ∧ (within_limit self → out.2 = w).
Proof.
  cbn zeta. unfold Storage.truncate, Storage.overflow, within_limit.
  destruct (int_of (Storage.max_records self)) as [n|].
  - case_bool_decide as Hn.
    + rewrite eff_bind_run, eff_ret_run. cbn [fst snd].
      rewrite for_delete_files. split_and!; [done..|].
      intros Hl. specialize (Hl n eq_refl). lia.
    + rewrite eff_ret_run. cbn [fst snd].
      rewrite take_ge, drop_ge by lia. split_and!; [by destruct self|done..].
  - rewrite eff_ret_run. split_and!; [by destruct self|done..].
Qed.

(** The disk after [update_config]. *)
Lemma update_config_files cfg now self w :
  let self' := Storage.Build (Some cfg) (Config.get_max_records cfg)
                 (Storage.data_file self) (Storage.records self) in
  let limit := max_age_seconds self' in
  let aged := filter (fresh now limit) (Storage.records self) in
  let kept := Storage.truncate (Config.get_max_records cfg) aged in
  let fs1 := unlink_images (filter (λ r, ¬ fresh now limit r) (Storage.records self)) (files w) in
  let fs2 := unlink_images (Storage.overflow (Config.get_max_records cfg) aged) fs1 in
  files (Storage.update_config cfg now self w).2 =
    if bool_decide (length kept < length (Storage.records self))%nat
    then write_file (Storage.data_file self) (Records kept) fs2
    else fs2.
Proof.
  cbn zeta. unfold Storage.update_config. cbn zeta.
  set (self' := Storage.Build _ _ _ _).
  rewrite eff_bind_run.
  pose proof (filter_by_age_spec now self' w) as [Hs1 Hf1]. cbn zeta in Hs1, Hf1.
  destruct (Storage._filter_by_age now self' w) as [s1 w1]. cbn [fst snd] in *.
  rewrite eff_bind_run.
  pose proof (cut_to_limit_spec s1 w1) as (Hs2 & Hf2 & _). cbn zeta in Hs2, Hf2.
  match goal with |- context [(?m w1).1] =>
    destruct (m w1) as [s2 w2] end.
  cbn [fst snd] in *. subst s1 s2. cbn [Storage.records Storage.set_records
    Storage.max_records Storage.data_file Storage.config] in *.
  change (Storage.records self') with (Storage.records self) in *.
  change (Storage.max_records self') with (Config.get_max_records cfg) in *.
  case_bool_decide as Hlen.
  - match goal with |- context [Storage._save_data ?s w2] =>
      pose proof (save_data_spec s w2) as [_ Hf3] end.
    cbn zeta in Hf3.
    cbn [Storage.records Storage.max_records Storage.data_file Storage.set_records
         Storage.config] in Hf3.
    change (Storage.max_records self') with (Config.get_max_records cfg) in Hf3.
    change (Storage.data_file self') with (Storage.data_file self) in Hf3.
    rewrite Hf3, truncate_idemp.
    replace (Storage.overflow (Config.get_max_records cfg)
               (Storage.truncate (Config.get_max_records cfg)
                  (filter (fresh now (max_age_seconds self')) (Storage.records self))))
      with (@nil record).
    2: { unfold Storage.overflow, Storage.truncate.
         destruct (int_of _) as [n|]; [|done].
         rewrite drop_ge; [done|]. rewrite length_take. lia. }
    cbn [unlink_images foldl]. by rewrite Hf2, Hf1.
  - rewrite eff_ret_run. cbn [snd]. by rewrite Hf2, Hf1.
Qed.

(** X4. When the new settings drop no record (none is too old, and the
    count is within the new limit), [update_config] only takes the
    settings over: it makes no call into the file system, not even a
    write of the data file. *)
Theorem update_config_without_eviction_is_silent cfg now self w :
  let self' := Storage.Build (Some cfg) (Config.get_max_records cfg)
                 (Storage.data_file self) (Storage.records self) in
  Forall (fresh now (max_age_seconds self')) (Storage.records self) →
  within_limit self' →
  Storage.update_config cfg now self w = (self', w).
Proof.
  cbn zeta. intros Hfresh Hlim. unfold Storage.update_config. cbn zeta.
  set (self' := Storage.Build _ _ _ _) in *.
  assert (Hfba : Storage._filter_by_age now self' w = (self', w)).
  { unfold Storage._filter_by_age. unfold max_age_seconds in Hfresh.
    cbn [Storage.config self' mbind option_bind] in *.
    destruct (int_of (Config.get_max_age_minutes cfg)) as [m|]; [|done].
    cbn [mbind option_bind] in Hfresh.
    rewrite age_step_foldl. cbn [app].
    rewrite (filter_all (fresh now (Some (Z.of_nat m * 60)))) by done.
    rewrite (filter_none (fresh now (Some (Z.of_nat m * 60)))) by done.
    done. }
  rewrite eff_bind_run, Hfba. cbn [fst snd].
  rewrite eff_bind_run.
  pose proof (cut_to_limit_spec self' w) as (Hs2 & _ & Hw2). cbn zeta in Hs2, Hw2.
  match goal with |- context [(?m w).1] => destruct (m w) as [s2 w2] end.
  cbn [fst snd] in *. rewrite (Hw2 Hlim). subst s2.
  rewrite truncate_within by apply Hlim.
  rewrite bool_decide_false by (cbn; lia). by destruct self.
Qed.

(** The sample settings keep both sample records at time 100. *)
Lemma update_config_without_eviction_is_silent_witness :
  Storage.update_config sample_config 100 sample_store sample_world =
    (Storage.Build (Some sample_config) (Config.get_max_records sample_config)
       (Storage.data_file sample_store) (Storage.records sample_store),
     sample_world).
Proof.
  apply (update_config_without_eviction_is_silent sample_config 100 sample_store sample_world).
  - vm_compute. repeat constructor; discriminate.
  - intros n. vm_compute. intros [= <-]. lia.
Defined.

Lemma is_file_write_other p q doc fs :
  p ≠ q → is_file (write_file q doc fs) p = is_file fs p.
Proof.
  intros Hne. unfold write_file. destruct (is_dir fs q); [done|].
  unfold is_file. by rewrite lookup_insert_ne.
Qed.

Lemma unlink_images_stays_gone rs fs p :
  is_file fs p = false → is_file (unlink_images rs fs) p = false.
Proof.
  intros H. destruct (is_file (unlink_images rs fs) p) eqn:E; [|done].
  apply unlink_images_is_file in E. congruence.
Qed.

Lemma elem_of_take_or_drop {A} (l : list A) n x :
  x ∈ l → x ∈ take n l ∨ x ∈ drop n l.
Proof. rewrite <- (take_drop n l) at 1. apply elem_of_app. Qed.

Lemma elem_of_truncate_or_overflow mr rs r :
  r ∈ rs → r ∈ Storage.truncate mr rs ∨ r ∈ Storage.overflow mr rs.
Proof.
  unfold Storage.truncate, Storage.overflow. destruct (int_of mr); [|auto].
  apply elem_of_take_or_drop.
Qed.

(** X5. After [update_config] the store works with the count limit of the
    new settings and its list is within that limit; and no image record
    that the new settings dropped, by age or by count, has its file left
    on disk, unless its path is that of the data file. *)
Theorem update_config_removes_dropped_images cfg now self w :
  let out := Storage.update_config cfg now self w in
  Storage.max_records out.1 = Config.get_max_records cfg ∧
  within_limit out.1 ∧
  (∀ r, r ∈ Storage.records self → r ∉ Storage.records out.1 →
        type r = "image" → content r ≠ Storage.data_file self →
        is_file (files out.2) (content r) = false).
Proof.
  cbn zeta. split_and!.
  { rewrite update_config_self. done. }
  { rewrite update_config_self. cbn. intros n Hn. by apply truncate_length. }
  intros r Hr Hgone Ht Hdf.
  rewrite update_config_self in Hgone. cbn in Hgone.
  rewrite update_config_files. cbn zeta.
  set (self' := Storage.Build _ _ _ _) in *.
  set (limit := max_age_seconds self') in *.
  assert (Hfs2 : is_file
            (unlink_images
               (Storage.overflow (Config.get_max_records cfg)
                  (filter (fresh now limit) (Storage.records self)))
               (unlink_images (filter (λ r, ¬ fresh now limit r) (Storage.records self))
                  (files w))) (content r) = false).
  { destruct (decide (fresh now limit r)) as [Hf|Hs].
    - assert (Hin : r ∈ filter (fresh now limit) (Storage.records self))
        by (by apply list_elem_of_filter).
      apply (elem_of_truncate_or_overflow (Config.get_max_records cfg)) in Hin
        as [Hin|Hin]; [done|].
      by apply unlink_images_gone.
    - apply unlink_images_stays_gone, unlink_images_gone; [|done].
      by apply list_elem_of_filter. }
  case_bool_decide; [|done]. by rewrite is_file_write_other.
Qed.

(** Ten records allowed, five minutes of age: at 315 the sample image has
    expired, and its file is gone. *)
Lemma update_config_removes_dropped_images_witness :
  let out := Storage.update_config sample_config 315 sample_store sample_world in
  Storage.max_records out.1 = VInt 10 ∧
  (length (Storage.records out.1) ≤ 10)%nat ∧
  is_file (files out.2) (content sample_image) = false.
Proof.
  pose proof (update_config_removes_dropped_images sample_config 315 sample_store
                sample_world) as H.
  cbn zeta in H. destruct H as (H1 & H2 & H3).
  cbn zeta. split_and!.
  - rewrite H1. vm_compute. reflexivity.
  - apply H2. rewrite H1. vm_compute. reflexivity.
  - apply (H3 sample_image).
    + vm_compute. repeat constructor.
    + vm_compute. intros H. apply elem_of_cons in H as [H|H]; [discriminate|].
      by apply elem_of_nil in H.
    + reflexivity.
    + vm_compute. discriminate.
Defined.

(** ** Saving *)

(** X6. [_save_data] on any list: the list is cut to the count limit, the
    data file then holds exactly the list that is kept, no image record
    beyond the limit has its file left, and every other path is as it
    was. *)
Theorem save_data_writes_the_kept_list self w :
  is_dir (files w) (Storage.data_file self) = false →
  let out := Storage._save_data self w in
  let kept := Storage.truncate (Storage.max_records self) (Storage.records self) in
  let cut := Storage.overflow (Storage.max_records self) (Storage.records self) in
  Storage.records out.1 = kept ∧
  files out.2 !! Storage.data_file self = Some (File (Records kept)) ∧
  (∀ r, r ∈ cut → type r = "image" → content r ≠ Storage.data_file self →
        is_file (files out.2) (content r) = false) ∧
  (∀ p, p ≠ Storage.data_file self → p ∉ image_paths cut →
        files out.2 !! p = files w !! p).
Proof.
  intros Hdir. cbn zeta.
  pose proof (save_data_spec self w) as [Hs Hf]. cbn zeta in Hs, Hf.
  rewrite Hs, Hf. clear Hs Hf.
  assert (Hd : is_dir (unlink_images
                 (Storage.overflow (Storage.max_records self) (Storage.records self))
                 (files w)) (Storage.data_file self) = false)
    by (by rewrite unlink_images_is_dir).
  split_and!.
  - done.
  - unfold write_file. rewrite Hd. apply lookup_insert_eq.
  - intros r Hr Ht Hne. rewrite is_file_write_other by done.
    by apply unlink_images_gone.
  - intros p Hp Hnot. unfold write_file. rewrite Hd.
    rewrite lookup_insert_ne by done. rewrite unlink_images_lookup.
    by rewrite bool_decide_false.
Qed.

(** The sample store and disk. *)
Lemma save_data_writes_the_kept_list_witness :
  files (Storage._save_data sample_store sample_world).2 !! Storage.data_file sample_store
  = Some (File (Records (Storage.truncate (Storage.max_records sample_store)
                           (Storage.records sample_store)))).
Proof.
  pose proof (save_data_writes_the_kept_list sample_store sample_world) as H.
  cbn zeta in H. destruct H as (_ & H & _); [vm_compute; reflexivity|]. exact H.
Defined.

(** ** Deleting *)

(** X7. In every state the store can reach, [delete_multiple] keeps exactly
    the records whose id is not in the given list, in their order; the data
    file then holds that list, and no image record that was removed has its
    file left on disk. *)
Theorem delete_multiple_removes_records_and_images self w record_ids :
  reachable any_record self →
  is_dir (files w) (Storage.data_file self) = false →
  let out := Storage.delete_multiple record_ids self w in
  let kept := filter (λ r, id r ∉ record_ids) (Storage.records self) in
  Storage.records out.1 = kept ∧
  files out.2 !! Storage.data_file self = Some (File (Records kept)) ∧
  (∀ r, r ∈ Storage.records self → id r ∈ record_ids → type r = "image" →
        content r ≠ Storage.data_file self →
        is_file (files out.2) (content r) = false).
Proof.
  intros Hreach Hdir. cbn zeta.
  apply reachable_within_limit in Hreach.
  unfold Storage.delete_multiple. rewrite eff_bind_run.
  pose proof (for_delete_files
    (filter (λ r, id r ∈ record_ids) (Storage.records self)) w) as Hf1.
  destruct (for_ _ _ w) as [[] w1]. cbn [fst snd] in *.
  rewrite save_data_within.
  2: { unfold within_limit in *. cbn. intros n Hn. specialize (Hreach n Hn).
       pose proof (length_filter (λ r, id r ∉ record_ids) (Storage.records self)). lia. }
  cbn [fst snd files Storage.records Storage.set_records Storage.data_file].
  assert (Hd : is_dir (files w1) (Storage.data_file self) = false)
    by (by rewrite Hf1, unlink_images_is_dir).
  split_and!; [done|..].
  - unfold write_file. rewrite Hd. apply lookup_insert_eq.
  - intros r Hr Hid Ht Hne. rewrite is_file_write_other by done. rewrite Hf1.
    apply unlink_images_gone; [|done]. by apply list_elem_of_filter.
Qed.

(** Both sample records are selected and deleted. *)
Lemma delete_multiple_removes_records_and_images_witness :
  let out := Storage.delete_multiple [10; 20] sample_store sample_world in
  Storage.records out.1 = [] ∧
  is_file (files out.2) (content sample_image) = false.
Proof.
  pose proof (delete_multiple_removes_records_and_images sample_store sample_world [10; 20])
    as H.
  cbn zeta in H. destruct H as (H1 & _ & H3); [apply reach_init|vm_compute; reflexivity|].
  split.
  - rewrite H1. vm_compute. reflexivity.
  - apply H3.
    + vm_compute. repeat constructor.
    + vm_compute. repeat constructor.
    + reflexivity.
    + vm_compute. discriminate.
Defined.

(** X8. In every state the store can reach, [delete_record] on an id that
    no record bears leaves the list as it is; its only call into the file
    system is the write of the data file. *)
Theorem delete_record_of_unknown_id self w record_id :
  reachable any_record self →
  (∀ r, r ∈ Storage.records self → id r ≠ record_id) →
  Storage.delete_record record_id self w =
    (self,
     World (write_file (Storage.data_file self) (Records (Storage.records self)) (files w))
           (calls w ++ [OpenWrite (Storage.data_file self)])).
Proof.
  intros Hreach Hnone. apply reachable_within_limit in Hreach.
  unfold Storage.delete_record.
  assert (Hall : filter (λ r, id r ≠ record_id) (Storage.records self)
                 = Storage.records self).
  { apply filter_all. by apply Forall_forall. }
  assert (Hfind : Storage.find_by_id record_id (Storage.records self) = None).
  { destruct (Storage.find_by_id _ _) as [e|] eqn:E; [|done].
    apply find_by_id_elem in E as [He Hid]. by destruct (Hnone e He). }
  rewrite Hfind, Hall, eff_bind_run, eff_ret_run. cbn [fst snd].
  replace (Storage.set_records (Storage.records self) self) with self by (by destruct self).
  by apply save_data_within.
Qed.

(** No sample record has the id 99. *)
Lemma delete_record_of_unknown_id_witness :
  Storage.delete_record 99 sample_store sample_world =
    (sample_store,
     World (write_file (Storage.data_file sample_store)
              (Records (Storage.records sample_store)) (files sample_world))
           (calls sample_world ++ [OpenWrite (Storage.data_file sample_store)])).
Proof.
  apply (delete_record_of_unknown_id sample_store sample_world 99).
  - apply reach_init.
  - intros r Hr. vm_compute in Hr.
    apply elem_of_cons in Hr as [->|Hr]; [vm_compute; discriminate|].
    apply elem_of_cons in Hr as [->|Hr]; [vm_compute; discriminate|].
    by apply elem_of_nil in Hr.
Defined.

(** X9. When the first record that bears the given id is an image record,
    [delete_record] removes its file from disk and every record with that
    id from the list, and keeps the other records in their order. *)
Theorem delete_record_of_image_removes_its_file self w r :
  Storage.find_by_id (id r) (Storage.records self) = Some r →
  type r = "image" →
  content r ≠ Storage.data_file self →
  let out := Storage.delete_record (id r) self w in
  is_file (files out.2) (content r) = false ∧
  (r ∉ Storage.records out.1) ∧
  Storage.records out.1 =
    Storage.truncate (Storage.max_records self)
      (filter (λ x, id x ≠ id r) (Storage.records self)).
Proof.
  intros Hfind Ht Hne. cbn zeta.
  rewrite delete_record_self.
  cbn [Storage.records Storage.set_records]. split_and!; [|..|done].
  - unfold Storage.delete_record. rewrite Hfind, eff_bind_run.
    pose proof (delete_image_of_files r w) as Hf1.
    destruct (Storage.delete_image_of r w) as [[] w1]. cbn [fst snd] in *.
    match goal with |- context [Storage._save_data ?s w1] =>
      pose proof (save_data_spec s w1) as [_ Hf2] end.
    cbn zeta in Hf2. rewrite Hf2.
    cbn [Storage.data_file Storage.set_records].
    rewrite is_file_write_other by done.
    apply unlink_images_stays_gone. rewrite Hf1.
    unfold unlink_image. rewrite bool_decide_true by done. cbn [andb].
    destruct (is_file (files w) (content r)) eqn:E; [|done].
    unfold is_file. by rewrite lookup_delete_eq.
  - intros Hin. eapply elem_of_sublist in Hin; [|apply truncate_sublist].
    apply list_elem_of_filter in Hin as [Hid _]. done.
Qed.

(** The sample image is deleted from the sample store. *)
Lemma delete_record_of_image_removes_its_file_witness :
  let out := Storage.delete_record (id sample_image) sample_store sample_world in
  is_file (files out.2) (content sample_image) = false ∧
  (sample_image ∉ Storage.records out.1) ∧
  Storage.records out.1 =
    Storage.truncate (Storage.max_records sample_store)
      (filter (λ x, id x ≠ id sample_image) (Storage.records sample_store)).
Proof.
  apply (delete_record_of_image_removes_its_file sample_store sample_world sample_image).
  - vm_compute. reflexivity.
  - reflexivity.
  - vm_compute. discriminate.
Defined.

(** ** Adding *)

(** X10. In every state the store can reach, adding a record with new
    content to a store without age limit puts it in front of the list and
    cuts the list to the count limit from the tail; the only call into the
    file system is the write of the data file. *)
Theorem add_record_of_new_content_goes_first self w r now :
  reachable any_record self →
  Forall (λ x, key x ≠ key r) (Storage.records self) →
  max_age_seconds self = None →
  let kept := Storage.truncate (Storage.max_records self) (r :: Storage.records self) in
  Storage.add_record r now self w =
    (Storage.set_records kept self,
     World (write_file (Storage.data_file self) (Records kept) (files w))
           (calls w ++ [OpenWrite (Storage.data_file self)])).
Proof.
  intros Hreach Hnew Hage. cbn zeta.
  unfold Storage.add_record. rewrite (proj2 (find_duplicate_None r _) Hnew).
  assert (Hfba : ∀ s, max_age_seconds s = None → Storage._filter_by_age now s w = (s, w)).
  { intros s Hs. unfold Storage._filter_by_age, max_age_seconds in *.
    destruct (Storage.config s) as [c|]; [|done]. cbn [mbind option_bind] in Hs.
    destruct (int_of (Config.get_max_age_minutes c)); [done|done]. }
  rewrite eff_bind_run, Hfba by done. cbn [fst snd].
  rewrite save_data_within.
  - done.
  - unfold within_limit. cbn. intros n Hn. by apply truncate_length.
Qed.

(** A new text for the sample store. *)
Lemma add_record_of_new_content_goes_first_witness :
  let r := Build_record 40 "world" "text" "2024-05-01 10:00:40" false in
  let kept := Storage.truncate (Storage.max_records sample_store)
                (r :: Storage.records sample_store) in
  Storage.add_record r 40 sample_store sample_world =
    (Storage.set_records kept sample_store,
     World (write_file (Storage.data_file sample_store) (Records kept) (files sample_world))
           (calls sample_world ++ [OpenWrite (Storage.data_file sample_store)])).
Proof.
  apply (add_record_of_new_content_goes_first sample_store sample_world
           (Build_record 40 "world" "text" "2024-05-01 10:00:40" false) 40).
  - apply reach_init.
  - vm_compute. repeat constructor; discriminate.
  - vm_compute. reflexivity.
Defined.

(** X11. A record that is already older than the age limit when it is
    added does not enter the list; when it is an image record, its file is
    removed as well. *)
Theorem add_record_of_expired_record_is_dropped self cfg M r now w :
  Storage.config self = Some cfg →
  Config.get_max_age_minutes cfg = VInt M →
  Forall (λ x, key x ≠ key r) (Storage.records self) →
  Z.of_nat M * 60 < now - id r →
  let out := Storage.add_record r now self w in
  (r ∉ Storage.records out.1) ∧
  (type r = "image" → content r ≠ Storage.data_file self →
   is_file (files out.2) (content r) = false).
Proof.
  intros Hcfg HM Hnew Hold. cbn zeta.
  assert (Hlim : max_age_seconds (Storage.set_records (r :: Storage.records self) self)
                 = Some (Z.of_nat M * 60)).
  { unfold max_age_seconds. cbn [Storage.config Storage.set_records].
    rewrite Hcfg. cbn. by rewrite HM. }
  assert (Hstale : ¬ fresh now (Some (Z.of_nat M * 60)) r) by (unfold fresh; lia).
  split.
  - rewrite add_record_new by (by apply find_duplicate_None).
    change (max_age_seconds self) with
      (max_age_seconds (Storage.set_records (r :: Storage.records self) self)).
    rewrite Hlim. intros Hin.
    eapply elem_of_sublist in Hin; [|apply truncate_sublist].
    apply list_elem_of_filter in Hin as [Hf _]. done.
  - intros Ht Hne. unfold Storage.add_record.
    rewrite (proj2 (find_duplicate_None r _) Hnew).
    rewrite eff_bind_run.
    pose proof (filter_by_age_spec now
      (Storage.set_records (r :: Storage.records self) self) w) as [Hs1 Hf1].
    cbn zeta in Hs1, Hf1. rewrite Hlim in Hs1, Hf1.
    destruct (Storage._filter_by_age now _ w) as [s1 w1]. cbn [fst snd] in *.
    match goal with |- context [Storage._save_data ?s w1] =>
      pose proof (save_data_spec s w1) as [_ Hf2] end.
    cbn zeta in Hf2. rewrite Hf2. subst s1.
    cbn [Storage.data_file Storage.set_records].
    rewrite is_file_write_other by done.
    apply unlink_images_stays_gone. rewrite Hf1.
    apply unlink_images_gone; [|done].
    apply list_elem_of_filter. split; [done|]. cbn. left.
Qed.

(** An image from long ago reaches the aged sample store. *)
Lemma add_record_of_expired_record_is_dropped_witness :
  let r := Build_record 1 "/app/temp_images/temp_image_ffffffff.png" "image"
             "2024-05-01 10:00:01" false in
  let out := Storage.add_record r 400 sample_aged_store sample_world in
  (r ∉ Storage.records out.1) ∧
  (type r = "image" → content r ≠ Storage.data_file sample_aged_store →
   is_file (files out.2) (content r) = false).
Proof.
  apply (add_record_of_expired_record_is_dropped sample_aged_store sample_config 5
           (Build_record 1 "/app/temp_images/temp_image_ffffffff.png" "image"
              "2024-05-01 10:00:01" false) 400 sample_world).
  - reflexivity.
  - vm_compute. reflexivity.
  - vm_compute. repeat constructor; discriminate.
  - vm_compute. reflexivity.
Defined.

(** * Further properties of the settings *)

(** [dict.update] with a list of pairs: a later pair wins over an earlier
    one, and over what the dict held. *)
Lemma update_pairs_spec pairs (d : gmap string value) :
  Config.update_pairs pairs d = list_to_map (reverse pairs) ∪ d.
Proof.
  unfold Config.update_pairs. revert d.
  induction pairs as [|[k v] pairs IH]; intros d; simpl.
  - by rewrite (left_id_L ∅ (∪)).
  - rewrite IH, reverse_cons, list_to_map_app. simpl.
    rewrite <- (assoc_L (∪)). f_equal.
    by rewrite insert_union_singleton_l, insert_empty.
Qed.

Lemma load_config_getters w p :
  let cfg := (Config._load_config (Config.Build p Config._load_default_config) w).1 in
  let stored := stored_settings (files w !! p) in
  Config.config_file cfg = p ∧
  Config.get_max_records cfg = default VNone (stored !! "max_records") ∧
  Config.get_max_age_minutes cfg = default VNone (stored !! "max_age_minutes") ∧
  Config.get_clear_data_on_exit cfg = default (VBool true) (stored !! "clear_data_on_exit").
Proof.
  cbn zeta. unfold Config._load_config. rewrite eff_bind_run.
  unfold os_path_exists. cbn [fst snd Config.config_file].
  assert (Hdef : Config.get_max_records (Config.Build p Config._load_default_config) = VNone
               ∧ Config.get_max_age_minutes (Config.Build p Config._load_default_config) = VNone
               ∧ Config.get_clear_data_on_exit (Config.Build p Config._load_default_config)
                 = VBool true)
    by (vm_compute; done).
  destruct Hdef as (Hd1 & Hd2 & Hd3).
  assert (H1 : Config._load_default_config !! "max_records" = Some VNone)
    by (vm_compute; done).
  assert (H2 : Config._load_default_config !! "max_age_minutes" = Some VNone)
    by (vm_compute; done).
  assert (H3 : Config._load_default_config !! "clear_data_on_exit" = Some (VBool true))
    by (vm_compute; done).
  assert (Hover : ∀ kv : gmap string value,
    let cfg := Config.Build p (kv ∪ Config._load_default_config) in
    Config.config_file cfg = p ∧
    Config.get_max_records cfg = default VNone (kv !! "max_records") ∧
    Config.get_max_age_minutes cfg = default VNone (kv !! "max_age_minutes") ∧
    Config.get_clear_data_on_exit cfg = default (VBool true) (kv !! "clear_data_on_exit")).
  { intros kv. cbn zeta.
    unfold Config.get_max_records, Config.get_max_age_minutes,
      Config.get_clear_data_on_exit. cbn [Config.config Config.config_file].
    rewrite !lookup_union, H1, H2, H3.
    split_and!; [done|..];
      match goal with |- context [kv !! ?k] => destruct (kv !! k) end; done. }
  destruct (files w !! p) as [[[rs|kv|first rest|]|]|] eqn:E; cbn [stored_settings].
  - rewrite bool_decide_true by eauto. rewrite eff_bind_run.
    unfold json_load. cbn [fst snd files log]. rewrite E, eff_ret_run. cbn [fst].
    by rewrite Hd1, Hd2, Hd3.
  - rewrite bool_decide_true by eauto. rewrite eff_bind_run.
    unfold json_load. cbn [fst snd files log]. rewrite E, eff_ret_run. cbn [fst].
    apply Hover.
  - rewrite bool_decide_true by eauto. rewrite eff_bind_run.
    unfold json_load. cbn [fst snd files log]. rewrite E, eff_ret_run. cbn [fst].
    cbn [Config.config Config.config_file]. rewrite update_pairs_spec.
    apply Hover.
  - rewrite bool_decide_true by eauto. rewrite eff_bind_run.
    unfold json_load. cbn [fst snd files log]. rewrite E, eff_ret_run. cbn [fst].
    by rewrite Hd1, Hd2, Hd3.
  - rewrite bool_decide_true by eauto. rewrite eff_bind_run.
    unfold json_load. cbn [fst snd files log]. rewrite E, eff_ret_run. cbn [fst].
    by rewrite Hd1, Hd2, Hd3.
  - rewrite bool_decide_false by (by intros [? ?]). rewrite eff_ret_run. cbn [fst].
    by rewrite Hd1, Hd2, Hd3.
Qed.

Lemma config_file_overrides_defaults_aux file__ w :
  let cfg := (Config.__init__ file__ w).1 in
  let stored :=
    stored_settings
      (files w !! os_path_join (os_path_dirname (os_path_dirname file__)) "config.json") in
  Config.get_max_records cfg = default VNone (stored !! "max_records") ∧
  Config.get_max_age_minutes cfg = default VNone (stored !! "max_age_minutes") ∧
  Config.get_clear_data_on_exit cfg = default (VBool true) (stored !! "clear_data_on_exit").
Proof.
  cbn zeta. unfold Config.__init__. cbn zeta.
  pose proof (load_config_getters w
    (os_path_join (os_path_dirname (os_path_dirname file__)) "config.json")) as H.
  cbn zeta in H. tauto.
Qed.

(** X12. A new [Config] answers, for each setting, the value the settings
    file gives it, and the default ([None], [None], [True]) for a setting
    the file does not name.  The file gives values as a JSON object, or as
    a non-empty list of [[key, value]] pairs, where the last pair of a key
    counts; when the path holds neither (a list of records, unreadable
    bytes, a directory, nothing) all three answers are the defaults. *)
Theorem config_file_overrides_defaults file__ w :
  let cfg := (Config.__init__ file__ w).1 in
  let stored : gmap string value :=
    match files w !! os_path_join (os_path_dirname (os_path_dirname file__)) "config.json" with
    | Some (File (Settings kv)) => kv
    | Some (File (Pairs first rest)) => list_to_map (reverse (first :: rest))
    | _ => ∅
    end in
  Config.get_max_records cfg = default VNone (stored !! "max_records") ∧
  Config.get_max_age_minutes cfg = default VNone (stored !! "max_age_minutes") ∧
  Config.get_clear_data_on_exit cfg = default (VBool true) (stored !! "clear_data_on_exit").
Proof.
  apply config_file_overrides_defaults_aux.
Qed.

(** The settings file of pairs: the second value of [max_records] counts,
    [max_age_minutes] is not named. *)
Lemma config_file_overrides_defaults_witness :
  let cfg := (Config.__init__ "/app/src/config.py" pairs_config_world).1 in
  Config.get_max_records cfg = VInt 20 ∧
  Config.get_max_age_minutes cfg = VNone ∧
  Config.get_clear_data_on_exit cfg = VBool false.
Proof.
  pose proof (config_file_overrides_defaults "/app/src/config.py" pairs_config_world) as H.
  cbn zeta in H. destruct H as (H1 & H2 & H3).
  cbn zeta. rewrite H1, H2, H3. clear. vm_compute. repeat split.
Defined.

Lemma is_dir_insert_file fs p q doc :
  is_dir fs q = false → is_dir (<[p := File doc]> fs) q = false.
Proof.
  unfold is_dir. intros H. destruct (decide (p = q)) as [->|Hne].
  - by rewrite lookup_insert_eq.
  - by rewrite lookup_insert_ne.
Qed.

Lemma setter_run p m w :
  is_dir (files w) p = false →
  (Config._save_config (Config.Build p m) ;; mret (Config.Build p m)) w =
    (Config.Build p m,
     World (<[p := File (Settings m)]> (files w)) (calls w ++ [OpenWrite p])).
Proof.
  intros Hd. unfold Config._save_config. rewrite !eff_bind_run, !eff_ret_run.
  unfold json_dump. cbn [Config.config_file Config.config]. by rewrite Hd.
Qed.

Lemma save_config_files p m w :
  is_dir (files w) p = false →
  files (Config._save_config (Config.Build p m) w).2 = <[p := File (Settings m)]> (files w).
Proof.
  intros Hd. unfold Config._save_config. rewrite eff_bind_run, eff_ret_run.
  unfold json_dump. cbn [Config.config_file Config.config]. by rewrite Hd.
Qed.

(** What the three calls of [accept_settings] leave. *)
Lemma accept_settings_spec ch cfg w :
  is_dir (files w) (Config.config_file cfg) = false →
  let out := SettingsDialog.accept_settings ch cfg w in
  let m1 := match SettingsDialog.selected_records ch with
            | Some v => <["max_records" := v]> (Config.config cfg)
            | None => Config.config cfg
            end in
  let m2 := match SettingsDialog.selected_time ch with
            | Some v => <["max_age_minutes" := v]> m1
            | None => m1
            end in
  let m3 := <["clear_data_on_exit" := VBool (SettingsDialog.clear_data_checked ch)]> m2 in
  out.1 = Config.Build (Config.config_file cfg) m3 ∧
  files out.2 !! Config.config_file cfg = Some (File (Settings m3)).
Proof.
  intros Hd. cbn zeta. unfold SettingsDialog.accept_settings.
  unfold Config.set_max_records, Config.set_max_age_minutes, Config.set_clear_data_on_exit.
  cbn zeta.
  destruct ch as [[v1|] [v2|] b];
    cbn [SettingsDialog.selected_records SettingsDialog.selected_time
         SettingsDialog.clear_data_checked];
    repeat (rewrite eff_bind_run;
            first [ rewrite (setter_run (Config.config_file cfg)) by
                      (cbn [files Config.config_file]; auto using is_dir_insert_file)
                  | rewrite eff_ret_run ];
            cbn [fst snd Config.config_file Config.config]);
    rewrite ?(setter_run (Config.config_file cfg)) by
      (cbn [files Config.config_file]; auto using is_dir_insert_file);
    cbn [fst snd files Config.config_file Config.config];
    (split; [by destruct cfg|]);
    rewrite ?save_config_files by
      (cbn [files Config.config_file]; auto using is_dir_insert_file);
    apply lookup_insert_eq.
Qed.

(** X13. When the dialog is accepted, each setting takes the value of the
    checked button (or stays as it was when no button of its group is
    checked) and the check box decides [clear_data_on_exit]; a [Config]
    that is built afterwards from the same settings file answers the same
    three values. *)
Theorem accepted_settings_are_persisted ch cfg file__ w :
  Config.config_file cfg =
    os_path_join (os_path_dirname (os_path_dirname file__)) "config.json" →
  is_dir (files w) (Config.config_file cfg) = false →
  let out := SettingsDialog.accept_settings ch cfg w in
  let again := (Config.__init__ file__ out.2).1 in
  Config.get_max_records out.1 =
    default (Config.get_max_records cfg) (SettingsDialog.selected_records ch) ∧
  Config.get_max_age_minutes out.1 =
    default (Config.get_max_age_minutes cfg) (SettingsDialog.selected_time ch) ∧
  Config.get_clear_data_on_exit out.1 = VBool (SettingsDialog.clear_data_checked ch) ∧
  Config.get_max_records again = Config.get_max_records out.1 ∧
  Config.get_max_age_minutes again = Config.get_max_age_minutes out.1 ∧
  Config.get_clear_data_on_exit again = Config.get_clear_data_on_exit out.1.
Proof.
  intros Hpath Hd. cbn zeta.
  pose proof (accept_settings_spec ch cfg w Hd) as [Hout Hfile]. cbn zeta in Hout, Hfile.
  pose proof (config_file_overrides_defaults_aux file__
    (SettingsDialog.accept_settings ch cfg w).2) as Hload.
  cbn zeta in Hload. rewrite <- Hpath, Hfile in Hload. cbn [stored_settings] in Hload.
  destruct Hload as (L1 & L2 & L3). rewrite L1, L2, L3, Hout.
  unfold Config.get_max_records, Config.get_max_age_minutes, Config.get_clear_data_on_exit.
  cbn [Config.config].
  destruct (SettingsDialog.selected_records ch) as [v1|],
           (SettingsDialog.selected_time ch) as [v2|]; cbn [default];
    rewrite ?lookup_insert_eq, ?lookup_insert_ne by done;
    rewrite ?lookup_insert_eq, ?lookup_insert_ne by done;
    rewrite ?lookup_insert_eq, ?lookup_insert_ne by done; done.
Qed.

(** The sample settings, changed to the sample choice. *)
Lemma accepted_settings_are_persisted_witness :
  let out := SettingsDialog.accept_settings sample_choice sample_config sample_world in
  let again := (Config.__init__ "/app/src/config.py" out.2).1 in
  Config.get_max_records again = VInt 20 ∧
  Config.get_max_age_minutes again = VInt 10 ∧
  Config.get_clear_data_on_exit again = VBool false.
Proof.
  pose proof (accepted_settings_are_persisted sample_choice sample_config
                "/app/src/config.py" sample_world) as H.
  cbn zeta in H.
  destruct H as (H1 & H2 & H3 & H4 & H5 & H6);
    [vm_compute; reflexivity|vm_compute; reflexivity|].
  cbn zeta. rewrite H4, H5, H6, H1, H2, H3. clear. vm_compute. repeat split.
Defined.

(** X14. The settings action of the window changes nothing when the window
    has no [Config] or the dialog is cancelled.  When the dialog is
    accepted, window and store hold the [Config] as the dialog left it, the
    store's count limit is the one of that [Config], and the list is within
    it. *)
Theorem show_settings_hands_settings_to_store accepted now self w :
  let out := SettingsAction.show_settings accepted now self w in
  match MainWindow.config self, accepted with
  | Some cfg, Some ch =>
      let cfg' := (SettingsDialog.accept_settings ch cfg w).1 in
      MainWindow.config out.1 = Some cfg' ∧
      Storage.config (MainWindow.storage out.1) = Some cfg' ∧
      Storage.max_records (MainWindow.storage out.1) = Config.get_max_records cfg' ∧
      within_limit (MainWindow.storage out.1)
  | _, _ => out = (self, w)
  end.
Proof.
  cbn zeta. unfold SettingsAction.show_settings.
  destruct (MainWindow.config self) as [cfg|]; [|done].
  destruct accepted as [ch|]; [|done].
  rewrite !eff_bind_run, eff_ret_run. cbn [fst snd MainWindow.config MainWindow.storage].
  rewrite update_config_self. cbn zeta.
  cbn [Storage.config Storage.max_records Storage.set_records Storage.records].
  split_and!; [done..|].
  unfold within_limit. cbn. intros n Hn. by apply truncate_length.
Qed.

(** * Further properties of the poll loop *)

Lemma poll_text_same (wrap : option string → ClipboardMonitor.clipboard) c self storage w s :
  wrap = ClipboardMonitor.UnicodeText ∨ wrap = ClipboardMonitor.AnsiText →
  ClipboardMonitor.last_content self = ClipboardMonitor.LStr s →
  ClipboardMonitor._check_clipboard true (wrap (Some s)) c self storage w
  = ((self, storage), w).
Proof.
  intros [-> | ->] Hs; cbn [ClipboardMonitor._check_clipboard negb];
    rewrite Hs; by rewrite bool_decide_false by tauto.
Qed.

Lemma poll_text_last (wrap : option string → ClipboardMonitor.clipboard) c self storage w s :
  wrap = ClipboardMonitor.UnicodeText ∨ wrap = ClipboardMonitor.AnsiText →
  ClipboardMonitor.last_content
    (ClipboardMonitor._check_clipboard true (wrap (Some s)) c self storage w).1.1
  = ClipboardMonitor.LStr s.
Proof.
  intros [-> | ->]; cbn [ClipboardMonitor._check_clipboard negb];
    (case_bool_decide as H;
     [by rewrite eff_bind_run
     |rewrite eff_ret_run; cbn [fst];
      destruct (decide (ClipboardMonitor.LStr s = ClipboardMonitor.last_content self));
      [done|tauto]]).
Qed.

Lemma poll_files_same c self storage w paths :
  ClipboardMonitor.last_content self = ClipboardMonitor.LFiles paths →
  ClipboardMonitor._check_clipboard true (ClipboardMonitor.FileDrop (Some paths))
    c self storage w = ((self, storage), w).
Proof.
  intros Hs. cbn [ClipboardMonitor._check_clipboard negb].
  rewrite Hs. by rewrite bool_decide_false by tauto.
Qed.

Lemma poll_files_last c self storage w paths :
  ClipboardMonitor.last_content
    (ClipboardMonitor._check_clipboard true (ClipboardMonitor.FileDrop (Some paths))
       c self storage w).1.1
  = ClipboardMonitor.LFiles paths.
Proof.
  cbn [ClipboardMonitor._check_clipboard negb]. case_bool_decide as H.
  - by rewrite eff_bind_run.
  - rewrite eff_ret_run. cbn [fst].
    destruct (decide (ClipboardMonitor.LFiles paths = ClipboardMonitor.last_content self));
      [done|tauto].
Qed.

(** X15. A clipboard that has not changed is not recorded again: a second
    poll that reads the same text, or the same list of dropped files,
    changes neither the monitor nor the store nor the disk and makes no
    call into the file system; the same holds for a bitmap whose digest is
    the value last seen. *)
Theorem unchanged_clipboard_is_not_recorded_again c c' self storage w :
  (∀ s,
     let out := ClipboardMonitor._check_clipboard true
                  (ClipboardMonitor.UnicodeText (Some s)) c self storage w in
     ClipboardMonitor._check_clipboard true (ClipboardMonitor.UnicodeText (Some s))
       c' out.1.1 out.1.2 out.2 = (out.1, out.2)) ∧
  (∀ s,
     let out := ClipboardMonitor._check_clipboard true
                  (ClipboardMonitor.AnsiText (Some s)) c self storage w in
     ClipboardMonitor._check_clipboard true (ClipboardMonitor.AnsiText (Some s))
       c' out.1.1 out.1.2 out.2 = (out.1, out.2)) ∧
  (∀ paths,
     let out := ClipboardMonitor._check_clipboard true
                  (ClipboardMonitor.FileDrop (Some paths)) c self storage w in
     ClipboardMonitor._check_clipboard true (ClipboardMonitor.FileDrop (Some paths))
       c' out.1.1 out.1.2 out.2 = (out.1, out.2)) ∧
  (∀ d,
     ClipboardMonitor.last_content self
       = ClipboardMonitor.LStr (ClipboardMonitor.hexdigest d) →
     ClipboardMonitor._check_clipboard true (ClipboardMonitor.Bitmap (Some d))
       c self storage w = ((self, storage), w)).
Proof.
  split_and!.
  - intros s. cbn zeta.
    match goal with |- context [(?o).1.1] => destruct o as [[m st] w'] eqn:E end.
    cbn [fst snd]. apply (poll_text_same ClipboardMonitor.UnicodeText); [by left|].
    pose proof (poll_text_last ClipboardMonitor.UnicodeText c self storage w s) as H.
    rewrite E in H. apply H. by left.
  - intros s. cbn zeta.
    match goal with |- context [(?o).1.1] => destruct o as [[m st] w'] eqn:E end.
    cbn [fst snd]. apply (poll_text_same ClipboardMonitor.AnsiText); [by right|].
    pose proof (poll_text_last ClipboardMonitor.AnsiText c self storage w s) as H.
    rewrite E in H. apply H. by right.
  - intros paths. cbn zeta.
    match goal with |- context [(?o).1.1] => destruct o as [[m st] w'] eqn:E end.
    cbn [fst snd]. apply poll_files_same.
    pose proof (poll_files_last c self storage w paths) as H.
    by rewrite E in H.
  - intros d Hd. cbn [ClipboardMonitor._check_clipboard negb].
    rewrite Hd. by rewrite bool_decide_false by tauto.
Qed.

(** * Further properties of the observers *)

Lemma observers_list_remove_absent o l :
  o ∉ l → Observers.list_remove o l = l.
Proof.
  induction l as [|x l IH]; [done|]. intros Hn. cbn.
  rewrite bool_decide_false by set_solver. rewrite IH by set_solver. done.
Qed.

Lemma observers_list_remove_snoc o l :
  o ∉ l → Observers.list_remove o (l ++ [o]) = l.
Proof.
  induction l as [|x l IH]; intros Hn; cbn.
  - by rewrite bool_decide_true.
  - rewrite bool_decide_false by set_solver. rewrite IH by set_solver. done.
Qed.

Lemma observers_list_remove_NoDup o l :
  NoDup l → (o ∉ Observers.list_remove o l) ∧ NoDup (Observers.list_remove o l).
Proof.
  induction 1 as [|x l Hx Hnd IH]; cbn.
  - split; [set_solver|constructor].
  - case_bool_decide as Heq.
    + subst. done.
    + destruct IH as [IH1 IH2]. split.
      * set_solver.
      * constructor; [|done]. intros Hin. apply Hx.
        clear -Hin. induction l as [|y l IHl]; [done|]. cbn in Hin.
        case_bool_decide; set_solver.
Qed.

(** X16. An observer is registered at most once: on a list without
    repetition, [add_observer] leaves a list without repetition that holds
    the observer, adding it a second time changes nothing, and
    [remove_observer] leaves a list without the observer; removing an
    observer that was just added gives back the list as it was. *)
Theorem observers_are_registered_once o observers :
  NoDup observers →
  NoDup (Observers.add_observer o observers) ∧
  o ∈ Observers.add_observer o observers ∧
  Observers.add_observer o (Observers.add_observer o observers)
    = Observers.add_observer o observers ∧
  (o ∉ Observers.remove_observer o observers) ∧
  NoDup (Observers.remove_observer o observers) ∧
  (o ∉ observers →
   Observers.remove_observer o (Observers.add_observer o observers) = observers).
Proof.
  intros Hnd. unfold Observers.add_observer, Observers.remove_observer.
  destruct (decide (o ∈ observers)) as [Hin|Hout].
  - rewrite (bool_decide_false (o ∉ observers)) by tauto.
    rewrite (bool_decide_false (o ∉ observers)) by tauto.
    rewrite !(bool_decide_true (o ∈ observers)) by done.
    pose proof (observers_list_remove_NoDup o observers Hnd) as [H1 H2].
    split_and!; try done.
  - rewrite (bool_decide_true (o ∉ observers)) by done.
    rewrite (bool_decide_false (o ∉ observers ++ [o])) by set_solver.
    rewrite (bool_decide_true (o ∈ observers ++ [o])) by set_solver.
    rewrite (bool_decide_false (o ∈ observers)) by done.
    split_and!; try done.
    + apply NoDup_app. split_and!; [done|set_solver|apply NoDup_singleton].
    + set_solver.
    + intros _. by apply observers_list_remove_snoc.
Qed.

(** The window registers with a list that has the legacy listener. *)
Lemma observers_are_registered_once_witness :
  Observers.add_observer window_observer
    (Observers.add_observer window_observer [legacy_observer])
  = Observers.add_observer window_observer [legacy_observer].
Proof.
  pose proof (observers_are_registered_once window_observer [legacy_observer]) as H.
  destruct H as (_ & _ & H & _); [apply NoDup_singleton|]. exact H.
Defined.

(** X17. [notify_change] reaches every registered observer that has a
    method for it: through [on_storage_change] when the observer has that
    method, through [update] only when it has [update] and no
    [on_storage_change], whatever the observers called before it do. *)
Theorem notify_change_reaches_every_observer o observers :
  o ∈ observers →
  (Observers.has_on_storage_change o = true →
     Observers.OnStorageChange (Observers.ident o) ∈ Observers.notify_change observers) ∧
  (Observers.has_on_storage_change o = false → Observers.has_update o = true →
     Observers.Update (Observers.ident o) ∈ Observers.notify_change observers) ∧
  (Observers.Update (Observers.ident o) ∈ Observers.notify_change observers →
     ∃ o', o' ∈ observers ∧ Observers.ident o' = Observers.ident o ∧
           Observers.has_on_storage_change o' = false ∧ Observers.has_update o' = true).
Proof.
  intros Hin. split_and!.
  - intros Hm. induction observers as [|x l IH]; [by apply elem_of_nil in Hin|].
    cbn. apply elem_of_app. apply elem_of_cons in Hin as [<-|Hin].
    + left. rewrite Hm. set_solver.
    + right. auto.
  - intros Hm Hu. induction observers as [|x l IH]; [by apply elem_of_nil in Hin|].
    cbn. apply elem_of_app. apply elem_of_cons in Hin as [<-|Hin].
    + left. rewrite Hm, Hu. set_solver.
    + right. auto.
  - clear Hin. induction observers as [|x l IH]; cbn; [set_solver|].
    intros H. apply elem_of_app in H as [H|H].
    + exists x. destruct (Observers.has_on_storage_change x) eqn:E1;
        [set_solver|]. destruct (Observers.has_update x) eqn:E2; [|set_solver].
      apply list_elem_of_singleton in H. inversion H. set_solver.
    + destruct (IH H) as (o' & Ho' & ?). exists o'. set_solver.
Qed.

(** The legacy listener raises, the window is still told. *)
Lemma notify_change_reaches_every_observer_witness :
  Observers.OnStorageChange 1
    ∈ Observers.notify_change [legacy_observer; window_observer].
Proof.
  pose proof (notify_change_reaches_every_observer window_observer
                [legacy_observer; window_observer]) as H.
  destruct H as (H & _); [set_solver|]. by apply H.
Defined.

(** * Further properties of the temp-images directory *)

(** X18. The sweep of the temp-images directory leaves alone every path
    that is not a regular file listed in that directory itself, and every
    path that is the content of an image record of the list. *)
Theorem cleanup_spares_referenced_and_foreign_paths self w p :
  child_name (Storage.temp_dir self) p = None
  ∨ is_file (files w) p = false
  ∨ p ∈ image_paths (Storage.records self) →
  files (Storage._cleanup_orphaned_images self w).2 !! p = files w !! p.
Proof.
  intros Hp. rewrite cleanup_files. unfold remove_orphans.
  destruct (is_dir (files w) (Storage.temp_dir self)); [|done].
  rewrite map_lookup_filter. destruct (files w !! p) as [x|] eqn:E; cbn; [|done].
  rewrite option_guard_True; [done|]. cbn. unfold orphan.
  intros (Hc & Hx & Hn). destruct Hp as [Hp|[Hp|Hp]].
  - rewrite Hp in Hc. by destruct Hc.
  - unfold is_file in Hp. rewrite E in Hp. by destruct x.
  - done.
Qed.

(** The file of the sample image is referenced by the sample store. *)
Lemma cleanup_spares_referenced_and_foreign_paths_witness :
  files (Storage._cleanup_orphaned_images sample_store sample_world).2
    !! content sample_image
  = files sample_world !! content sample_image.
Proof.
  apply (cleanup_spares_referenced_and_foreign_paths sample_store sample_world
           (content sample_image)).
  right. right. vm_compute. repeat constructor.
Defined.

(** ** Where the directory is *)

Lemma append_nil_l (s : string) : "" +:+ s = s.
Proof. done. Qed.

Lemma has_sep_app_sep a b : has_sep (a +:+ String sep b) = true.
Proof.
  induction a as [|c a IH].
  - done.
  - rewrite append_cons. cbn [has_sep]. rewrite IH. apply orb_true_r.
Qed.

Lemma head_part_no_sep s : has_sep s = false → head_part s = "".
Proof.
  destruct s as [|c s]; [done|]. cbn. intros [Hc Hs]%orb_false_iff.
  by rewrite Hs, Hc.
Qed.

Lemma head_part_app_sep a b :
  has_sep b = false → head_part (a +:+ String sep b) = a +:+ String sep "".
Proof.
  intros Hb. induction a as [|c a IH].
  - rewrite !append_nil_l. cbn. by rewrite Hb.
  - rewrite !append_cons. cbn [head_part]. by rewrite has_sep_app_sep, IH.
Qed.

Lemma ends_with_sep_split s :
  ends_with_sep s = true → ∃ a, s = a +:+ String sep "".
Proof.
  induction s as [|c s IH]; [done|]. destruct s as [|c' s'].
  - cbn. intros ->%bool_decide_eq_true. by exists "".
  - intros H. destruct (IH H) as [a Ha]. exists (String c a).
    rewrite append_cons. by rewrite <- Ha.
Qed.

Lemma ends_with_sep_snoc a : ends_with_sep (a +:+ String sep "") = true.
Proof.
  induction a as [|c a IH]; [done|].
  rewrite append_cons. destruct a as [|c' a']; [done|].
  rewrite append_cons in *. exact IH.
Qed.

Lemma all_sep_ends s : all_sep s = true → s ≠ "" → ends_with_sep s = true.
Proof.
  induction s as [|c s IH]; [done|]. cbn [all_sep]. intros [Hc Hs]%andb_true_iff _.
  destruct s as [|c' s']; [done|]. apply IH; done.
Qed.

Lemma rstrip_sep_cons c s :
  rstrip_sep (String c s) =
    match rstrip_sep s with
    | EmptyString => if bool_decide (c = sep) then EmptyString else String c EmptyString
    | r => String c r
    end.
Proof. done. Qed.

Lemma rstrip_sep_snoc a : rstrip_sep (a +:+ String sep "") = rstrip_sep a.
Proof.
  induction a as [|c a IH]; [done|].
  rewrite append_cons, !rstrip_sep_cons. by rewrite IH.
Qed.

Lemma rstrip_sep_fixed s : ends_with_sep s = false → rstrip_sep s = s.
Proof.
  induction s as [|c s IH]; [done|]. destruct s as [|c' s'].
  - cbn. intros H. by rewrite H.
  - intros H. rewrite rstrip_sep_cons, IH by exact H. done.
Qed.

Lemma rstrip_sep_ends s : ends_with_sep (rstrip_sep s) = false.
Proof.
  induction s as [|c s IH]; [done|]. rewrite rstrip_sep_cons.
  destruct (rstrip_sep s) as [|a r] eqn:E.
  - case_bool_decide as Hc; [done|]. cbn. by rewrite bool_decide_false.
  - exact IH.
Qed.

(** What [os.path.dirname] returns is empty, made of separators, or does
    not end in one. *)
Lemma os_path_dirname_shape p :
  all_sep (os_path_dirname p) = true ∨ ends_with_sep (os_path_dirname p) = false.
Proof.
  unfold os_path_dirname. cbn zeta.
  destruct (bool_decide (head_part p = "")) eqn:E1; cbn [negb andb].
  - apply bool_decide_eq_true in E1. rewrite E1. by left.
  - destruct (all_sep (head_part p)) eqn:E2; cbn [negb]; [by left|].
    right. apply rstrip_sep_ends.
Qed.

Lemma os_path_dirname_join d name :
  all_sep d = true ∨ ends_with_sep d = false →
  has_sep name = false →
  os_path_dirname (os_path_join d name) = d.
Proof.
  intros Hd Hn. unfold os_path_join. rewrite (starts_with_sep_no_sep name Hn).
  destruct (decide (d = "")) as [->|Hne].
  - rewrite (bool_decide_true ("" = "")) by done. cbn [orb]. rewrite append_nil_l.
    unfold os_path_dirname. by rewrite (head_part_no_sep name Hn).
  - rewrite (bool_decide_false (d = "")) by done. cbn [orb].
    destruct (ends_with_sep d) eqn:Ee.
    + destruct Hd as [Ha|?]; [|done].
      destruct (ends_with_sep_split d Ee) as [a ->].
      rewrite append_assoc, append_cons, append_nil_l.
      unfold os_path_dirname.
      rewrite (head_part_app_sep a name Hn), Ha.
      by rewrite andb_false_r.
    + unfold os_path_dirname. rewrite (head_part_app_sep d name Hn).
      assert (Hall : all_sep (d +:+ String sep "") = false).
      { destruct (all_sep (d +:+ String sep "")) eqn:E; [|done].
        assert (all_sep d = true).
        { clear -E. induction d as [|c d IH]; [done|].
          rewrite append_cons in E. cbn in *.
          apply andb_true_iff in E as [-> E]. cbn. auto. }
        rewrite (all_sep_ends d) in Ee by done. done. }
      rewrite Hall.
      rewrite bool_decide_false by (by destruct d).
      cbn [negb andb]. rewrite rstrip_sep_snoc. by apply rstrip_sep_fixed.
Qed.

(** X19. The directory a store sweeps and removes is the directory the
    monitor saves images to: for modules that lie in the same directory,
    [temp_dir] of a new store is [_get_temp_dir] of the monitor. *)
Theorem store_and_monitor_share_temp_dir storage_file monitor_file cfg max_records now w :
  os_path_dirname (os_path_dirname storage_file)
    = os_path_dirname (os_path_dirname monitor_file) →
  Storage.temp_dir (Storage.__init__ storage_file cfg max_records now w).1
    = ClipboardMonitor._get_temp_dir monitor_file.
Proof.
  intros Hsame. unfold Storage.__init__. cbn zeta.
  match goal with |- context [Storage._load_data now ?s w] =>
    destruct (load_data_records now s w) as (rs & -> & _) end.
  unfold Storage.temp_dir, ClipboardMonitor._get_temp_dir.
  cbn [Storage.data_file Storage.set_records].
  rewrite os_path_dirname_join; [by rewrite Hsame| |done].
  apply os_path_dirname_shape.
Qed.

(** [storage.py] and [clipboard_monitor.py] in [/app/src]. *)
Lemma store_and_monitor_share_temp_dir_witness :
  Storage.temp_dir sample_store
    = ClipboardMonitor._get_temp_dir "/app/src/clipboard_monitor.py".
Proof.
  apply (store_and_monitor_share_temp_dir sample_file "/app/src/clipboard_monitor.py"
           None (VInt 50) 30 sample_world).
  vm_compute. reflexivity.
Defined.
